(** * Fuel-request approval workflow of the ALH fleet application

    A shallow embedding of the parts of the React/Supabase application that
    carry the approval workflow:

    - the row types of [src/types/index.ts] and of the initial migration;
    - the row-level-security policies and constraints of the migration that
      the handlers run against;
    - [fetchDemandes], [handleValidation] and [canValidate] of the
      fuel-request list page;
    - [onSubmit] and [uploadFiles] of the new-request page, with the field
      rules registered on its form.

    Handlers are written in a state-and-exception monad over the pair of the
    hosted store and the component state.  A thrown error does not undo what
    the store already persisted: the handlers open no transaction.

    Conventions of the model:

    - the profile returned by [useAuth()] is the caller's row of
      [utilisateurs], so policies read the caller's identifier and role from
      it; a missing profile is the unauthenticated caller;
    - a JavaScript [number] is an integer ([Z]) where the column is an
      integer and a rational ([Q]) where it is a decimal; timestamps are
      integers;
    - an insert brings each number to the type the migration gives its
      column before anything else is checked: an [integer] column refuses a
      value outside the 32-bit range, the [numeric(8,2)] column rounds to two
      decimals and refuses a value that then needs more than six digits
      before the point;
    - the loaded list holds the rows of [demandes_carburant]; the embedded
      relations of the select only feed the display and are left out;
    - [fetchDemandes()] at the end of [handleValidation] is not awaited in the
      source; here it has run to its end before the next handler starts;
    - what lies outside the program (clock, generated identifiers, failures of
      the service) is an argument [Env] of each handler. *)

From Stdlib Require Import String Ascii List Bool ZArith QArith Lia Permutation Sorted.
From Stdlib Require Import DecimalString.
Import ListNotations.

Open Scope string_scope.
Open Scope Z_scope.

(** ** Enumerations *)

Inductive UserRole := chauffeur | pompiste | superviseur | directeur | admin.

Inductive StatutDemande :=
  en_attente | valide_superviseur | valide_pompiste | valide_dg | rejete.

(** ['approuve' | 'rejete'] of the type [StatutValidation]; the second name is
    prefixed because [rejete] is already a [StatutDemande]. *)
Inductive StatutValidation := approuve | v_rejete.

Definition role_eqb (a b : UserRole) : bool :=
  match a, b with
  | chauffeur, chauffeur | pompiste, pompiste | superviseur, superviseur
  | directeur, directeur | admin, admin => true
  | _, _ => false
  end.

Definition statut_eqb (a b : StatutDemande) : bool :=
  match a, b with
  | en_attente, en_attente | valide_superviseur, valide_superviseur
  | valide_pompiste, valide_pompiste | valide_dg, valide_dg
  | rejete, rejete => true
  | _, _ => false
  end.

Definition statut_validation_text (s : StatutValidation) : string :=
  match s with approuve => "approuve" | v_rejete => "rejete" end.

(** ** Rows *)

Module User.
Record t := mk
    { id : string; nom : string; email : string; role : UserRole;
      actif : bool; date_creation : Z }.
End User.

Module Vehicule.
Record t := mk
    { id : string; immatriculation : string; id_type : string; actif : bool }.
End Vehicule.

Module Demande.
(** A row of [demandes_carburant]; [date_modification] is the column kept by
    the [update_modified_column] trigger. *)
Record t := mk
    { id : string; id_utilisateur : string; id_vehicule : string;
      km_compteur : Z; site : string; mission : string;
      quantite_demandee : Q; quantite_servie : option Q; raison : string;
      statut : StatutDemande; date_demande : Z; date_modification : Z }.

Definition with_statut (s : StatutDemande) (now : Z) (d : t) : t :=
  mk (id d) (id_utilisateur d) (id_vehicule d) (km_compteur d) (site d)
     (mission d) (quantite_demandee d) (quantite_servie d) (raison d)
     s (date_demande d) now.
End Demande.

Module Justificatif.
Record t := mk
    { id : string; id_demande : string; url_fichier : string;
      nom_fichier : string; type_fichier : string; taille_fichier : Z;
      date_upload : Z }.
End Justificatif.

Module Validation.
Record t := mk
    { id : string; id_demande : string; valide_par : option string;
      niveau_validation : Z; statut_validation : StatutValidation;
      commentaire : option string; date_validation : Z }.
End Validation.

Module LogAction.
Record t := mk
    { id : string; utilisateur_id : option string; action : string;
      details : option string; date_action : Z }.
End LogAction.

(** A browser [File] as the upload code reads it. *)
Module File.
Record t := mk { name : string; type : string; size : Z }.
End File.

(** ** The hosted store *)

Record Db := mkDb
  { vehicules : list Vehicule.t;
    demandes_carburant : list Demande.t;
    justificatifs : list Justificatif.t;
    validations : list Validation.t;
    logs : list LogAction.t;
    (** object names of the storage bucket ['justificatifs'] *)
    bucket : list string }.

Definition set_demandes (l : list Demande.t) (s : Db) : Db :=
  mkDb (vehicules s) l (justificatifs s) (validations s) (logs s) (bucket s).
Definition set_justificatifs (l : list Justificatif.t) (s : Db) : Db :=
  mkDb (vehicules s) (demandes_carburant s) l (validations s) (logs s) (bucket s).
Definition set_validations (l : list Validation.t) (s : Db) : Db :=
  mkDb (vehicules s) (demandes_carburant s) (justificatifs s) l (logs s) (bucket s).
Definition set_logs (l : list LogAction.t) (s : Db) : Db :=
  mkDb (vehicules s) (demandes_carburant s) (justificatifs s) (validations s) l (bucket s).
Definition set_bucket (l : list string) (s : Db) : Db :=
  mkDb (vehicules s) (demandes_carburant s) (justificatifs s) (validations s) (logs s) l.

(** The error object a store call hands back in its [error] field. *)
Inductive StoreError :=
| Unavailable        (* network or service failure *)
| PolicyViolation    (* a WITH CHECK policy refused the new row *)
| ForeignKeyViolation
| NumericOutOfRange  (* a value does not fit the type of its column *)
| ObjectExists.      (* the bucket already holds an object of that name *)

(** The store calls a handler makes, as the environment can fail them. *)
Inductive Call :=
| SelectDemandes | UpdateDemande | InsertValidation | RpcLogAction
| InsertDemande | UploadObject (n : nat) | InsertJustificatifs.

(** What the handlers take from outside the program during one run: the
    clocks, the identifiers [uuid_generate_v4()] draws, which of the store
    calls fail for reasons of their own, JavaScript's rendering of a number
    inside a template string and the bucket's public address of an object. *)
Record Env := mkEnv
  { now : Z;                      (* the store's [now()] *)
    date_now : nat -> Z;          (* [Date.now()] at the n-th file *)
    uuid : Call -> string;
    unavailable : Call -> bool;
    number_text : Q -> string;
    public_url : string -> string }.

(** ** Toasts and the component state *)

Inductive Toast :=
| toast_error (message : string)
| toast_success (message : string).

Record Client := mkClient
  { user : option User.t;               (* useAuth() *)
    demandes : list Demande.t;          (* the loaded list *)
    uploadedFiles : list File.t;
    loading : bool;
    showModal : bool;
    location : string;                  (* last navigate() target *)
    toasts : list Toast }.              (* oldest first *)

Record World := mkWorld { db : Db; ui : Client }.

(** ** The handler monad: state that survives a throw *)

Definition Eff (A : Type) : Type := World -> World * (StoreError + A).

Definition ret {A} (a : A) : Eff A := fun w => (w, inr a).

Definition bind {A B} (m : Eff A) (k : A -> Eff B) : Eff B :=
  fun w => match m w with
           | (w', inl e) => (w', inl e)
           | (w', inr a) => k a w'
           end.

Definition throw {A} (e : StoreError) : Eff A := fun w => (w, inl e).

Definition try_catch {A} (body : Eff A) (handler : StoreError -> Eff A) : Eff A :=
  fun w => match body w with
           | (w', inl e) => handler e w'
           | (w', inr a) => (w', inr a)
           end.

(** [try { body } catch (e) { handler } finally { cleanup }]. *)
Definition try_catch_finally {A} (body : Eff A) (handler : StoreError -> Eff A)
    (cleanup : Eff unit) : Eff A :=
  fun w => match try_catch body handler w with
           | (w', r) => match cleanup w' with
                        | (w'', inl e) => (w'', inl e)
                        | (w'', inr _) => (w'', r)
                        end
           end.

Declare Scope eff_scope.
Delimit Scope eff_scope with eff.
Notation "x <- m ;; k" := (bind m (fun x => k))
  (at level 61, m at next level, right associativity) : eff_scope.
Notation "m ;; k" := (bind m (fun _ => k))
  (at level 61, right associativity) : eff_scope.
Open Scope eff_scope.

(** [if (error) throw error]. *)
Definition throw_if (error : option StoreError) : Eff unit :=
  match error with Some e => throw e | None => ret tt end.

Definition get_ui : Eff Client := fun w => (w, inr (ui w)).

(** The state setters of the components, and [toast.error] / [toast.success]. *)
Definition with_demandes (l : list Demande.t) (c : Client) : Client :=
  mkClient (user c) l (uploadedFiles c) (loading c) (showModal c) (location c)
           (toasts c).
Definition with_loading (b : bool) (c : Client) : Client :=
  mkClient (user c) (demandes c) (uploadedFiles c) b (showModal c) (location c)
           (toasts c).
Definition with_showModal (b : bool) (c : Client) : Client :=
  mkClient (user c) (demandes c) (uploadedFiles c) (loading c) b (location c)
           (toasts c).
Definition with_location (path : string) (c : Client) : Client :=
  mkClient (user c) (demandes c) (uploadedFiles c) (loading c) (showModal c) path
           (toasts c).
Definition push_toast (t : Toast) (c : Client) : Client :=
  mkClient (user c) (demandes c) (uploadedFiles c) (loading c) (showModal c)
           (location c) (toasts c ++ [t]).

Definition modify_ui (f : Client -> Client) : Eff unit :=
  fun w => (mkWorld (db w) (f (ui w)), inr tt).

Definition setDemandes (l : list Demande.t) : Eff unit := modify_ui (with_demandes l).
Definition setLoading (b : bool) : Eff unit := modify_ui (with_loading b).
Definition setShowModal (b : bool) : Eff unit := modify_ui (with_showModal b).
Definition navigate (path : string) : Eff unit := modify_ui (with_location path).
Definition toast (t : Toast) : Eff unit := modify_ui (push_toast t).

(** Running a handler: the world it leaves behind, and the toasts it showed. *)
Definition exec {A} (m : Eff A) (w : World) : World := fst (m w).

Definition new_toasts (w w' : World) : list Toast :=
  skipn (length (toasts (ui w))) (toasts (ui w')).

(** ** Row-level security and constraints (initial migration) *)

(** [role IN ('superviseur', 'directeur', 'admin', 'pompiste')]. *)
Definition role_in_staff (r : UserRole) : bool :=
  match r with
  | superviseur | directeur | admin | pompiste => true
  | chauffeur => false
  end.

(** [auth.uid()] of the session: the signed-in profile's identifier. *)
Definition auth_uid (caller : option User.t) : option string :=
  option_map User.id caller.

Definition uid_is (caller : option User.t) (owner : string) : bool :=
  match caller with
  | Some u => String.eqb owner (User.id u)
  | None => false
  end.

(** [EXISTS (SELECT 1 FROM utilisateurs WHERE id = auth.uid() AND role IN
    (...))]: the signed-in profile is the caller's row of [utilisateurs]. *)
Definition caller_is_staff (caller : option User.t) : bool :=
  match caller with
  | Some u => role_in_staff (User.role u)
  | None => false
  end.

(** "Users can read relevant fuel requests". *)
Definition policy_select_demande (caller : option User.t) (d : Demande.t) : bool :=
  uid_is caller (Demande.id_utilisateur d) || caller_is_staff caller.

(** "Chauffeurs can create fuel requests". *)
Definition policy_insert_demande (caller : option User.t) (d : Demande.t) : bool :=
  uid_is caller (Demande.id_utilisateur d) &&
  match caller with
  | Some u => role_eqb (User.role u) chauffeur
  | None => false
  end.

(** "Authorized users can update fuel requests". *)
Definition policy_update_demande (caller : option User.t) : bool :=
  caller_is_staff caller.

(** "Users can upload justificatifs for their requests". *)
Definition policy_insert_justificatif (caller : option User.t) (s : Db)
    (j : Justificatif.t) : bool :=
  existsb (fun dc => String.eqb (Demande.id dc) (Justificatif.id_demande j) &&
                     uid_is caller (Demande.id_utilisateur dc))
          (demandes_carburant s).

(** "Authorized users can create validations". *)
Definition policy_insert_validation (caller : option User.t) (v : Validation.t) : bool :=
  match Validation.valide_par v with
  | Some by_ => uid_is caller by_
  | None => false
  end && caller_is_staff caller.

(** "All users can create logs", granted [TO authenticated]. *)
Definition policy_insert_log (caller : option User.t) : bool :=
  match caller with Some _ => true | None => false end.

Definition demande_exists (s : Db) (id : string) : bool :=
  existsb (fun dc => String.eqb (Demande.id dc) id) (demandes_carburant s).

Definition vehicule_exists (s : Db) (id : string) : bool :=
  existsb (fun v => String.eqb (Vehicule.id v) id) (vehicules s).

(** ** Store calls *)

(** [.order('date_demande', { ascending: false })]. *)
Fixpoint insert_by_date (d : Demande.t) (l : list Demande.t) : list Demande.t :=
  match l with
  | [] => [d]
  | x :: r =>
      if Demande.date_demande x <=? Demande.date_demande d
      then d :: l
      else x :: insert_by_date d r
  end.

Definition order_by_date_desc (l : list Demande.t) : list Demande.t :=
  fold_right insert_by_date [] l.

(** The rows a [select] on [demandes_carburant] sends back to [caller], with
    the optional [.eq('id_utilisateur', owner)] filter of the query. *)
Definition visible_demandes (caller : option User.t) (owner : option string)
    (s : Db) : list Demande.t :=
  order_by_date_desc
    (filter (fun d => match owner with
                      | Some o => String.eqb (Demande.id_utilisateur d) o
                      | None => true
                      end)
            (filter (policy_select_demande caller) (demandes_carburant s))).

(** [{ data, error }] of the select; it reads the store and writes nothing. *)
Definition select_demandes (env : Env) (owner : option string)
    : Eff (option (list Demande.t) * option StoreError) :=
  fun w =>
    if unavailable env SelectDemandes
    then (w, inr (None, Some Unavailable))
    else (w, inr (Some (visible_demandes (user (ui w)) owner (db w)), None)).

(** The rows after [SET statut = newStatut WHERE id = demandeId]; the trigger
    stamps [date_modification] on every row that is written. *)
Definition write_statut (env : Env) (demandeId : string) (newStatut : StatutDemande)
    (rows : list Demande.t) : list Demande.t :=
  map (fun d => if String.eqb (Demande.id d) demandeId
                then Demande.with_statut newStatut (now env) d
                else d) rows.

(** [.update({ statut }).eq('id', demandeId)]: rows the update policy hides
    from the caller are left alone without an error. *)
Definition update_statut (env : Env) (demandeId : string) (newStatut : StatutDemande)
    : Eff (option StoreError) :=
  fun w =>
    if unavailable env UpdateDemande then (w, inr (Some Unavailable))
    else if policy_update_demande (user (ui w)) then
      (mkWorld
         (set_demandes
            (write_statut env demandeId newStatut (demandes_carburant (db w)))
            (db w))
         (ui w),
       inr None)
    else (w, inr None).

(** [.from('validations').insert({...})]: the identifier and the date are the
    column defaults. *)
Definition insert_validation (env : Env) (id_demande : string)
    (valide_par : option string) (niveau_validation : Z)
    (statut_validation : StatutValidation) (commentaire : option string)
    : Eff (option StoreError) :=
  fun w =>
    let row := Validation.mk (uuid env InsertValidation) id_demande valide_par
                 niveau_validation statut_validation commentaire (now env) in
    if unavailable env InsertValidation then (w, inr (Some Unavailable))
    else if negb (policy_insert_validation (user (ui w)) row)
    then (w, inr (Some PolicyViolation))
    else if negb (demande_exists (db w) id_demande)
    then (w, inr (Some ForeignKeyViolation))
    else (mkWorld (set_validations (validations (db w) ++ [row]) (db w)) (ui w),
          inr None).

(** [supabase.rpc('log_action', {...})]: the SQL function inserts one row of
    [logs] under the caller's rights. *)
Definition rpc_log_action (env : Env) (user_id : option string)
    (action_text details_text : string) : Eff (option StoreError) :=
  fun w =>
    let row := LogAction.mk (uuid env RpcLogAction) user_id action_text
                 (Some details_text) (now env) in
    if unavailable env RpcLogAction then (w, inr (Some Unavailable))
    else if negb (policy_insert_log (user (ui w)))
    then (w, inr (Some PolicyViolation))
    else (mkWorld (set_logs (logs (db w) ++ [row]) (db w)) (ui w), inr None).

(** ** The fuel-request list page *)

(** [user?.role === r]. *)
Definition role_is (u : option User.t) (r : UserRole) : bool :=
  match u with
  | Some x => role_eqb (User.role x) r
  | None => false
  end.

Definition msg_erreur_chargement : string := "Erreur lors du chargement des demandes".

Definition fetchDemandes (env : Env) : Eff unit :=
  try_catch_finally
    (setLoading true ;;
     c <- get_ui ;;
     (* Filter based on user role *)
     let owner := if role_is (user c) chauffeur then auth_uid (user c) else None in
     r <- select_demandes env owner ;;
     throw_if (snd r) ;;
     setDemandes (match fst r with Some data => data | None => [] end))
    (fun _ => toast (toast_error msg_erreur_chargement))
    (setLoading false).

(** "Determine next status based on current status and user role": the
    [if / else if / else] chain of [handleValidation]; [None] is its last
    branch. *)
Definition next_statut (u : option User.t) (demande : Demande.t)
    (statut : StatutValidation) : option (StatutDemande * Z) :=
  let approved := match statut with approuve => true | v_rejete => false end in
  if role_is u superviseur && statut_eqb (Demande.statut demande) en_attente then
    Some (if approved then valide_superviseur else rejete, 1)
  else if role_is u pompiste && statut_eqb (Demande.statut demande) valide_superviseur then
    Some (if approved then valide_pompiste else rejete, 2)
  else if role_is u directeur && statut_eqb (Demande.statut demande) valide_pompiste then
    Some (if approved then valide_dg else rejete, 3)
  else None.

Definition niveau_text (n : Z) : string := NilZero.string_of_int (Z.to_int n).

Definition msg_non_autorisee : string := "Action non autorisée".
Definition msg_erreur_validation : string := "Erreur lors de la validation".
Definition msg_succes (statut : StatutValidation) : string :=
  "Demande " ++ match statut with approuve => "approuvée" | v_rejete => "rejetée" end
             ++ " avec succès".

Definition handleValidation (env : Env) (demandeId : string)
    (statut : StatutValidation) (commentaire : option string) : Eff unit :=
  try_catch
    (c <- get_ui ;;
     match find (fun d => String.eqb (Demande.id d) demandeId) (demandes c) with
     | None => ret tt
     | Some demande =>
         match next_statut (user c) demande statut with
         | None => toast (toast_error msg_non_autorisee)
         | Some (newStatut, niveauValidation) =>
             (* Update demande status *)
             updateError <- update_statut env demandeId newStatut ;;
             throw_if updateError ;;
             (* Add validation record *)
             validationError <-
               insert_validation env demandeId (auth_uid (user c))
                 niveauValidation statut commentaire ;;
             throw_if validationError ;;
             (* Log action *)
             _ <- rpc_log_action env (auth_uid (user c))
                    ("Validation " ++ statut_validation_text statut ++
                     " - Niveau " ++ niveau_text niveauValidation)
                    ("Demande " ++ demandeId ++ " - " ++
                     match commentaire with Some t => t | None => "" end) ;;
             toast (toast_success (msg_succes statut)) ;;
             fetchDemandes env ;;
             setShowModal false
         end
     end)
    (fun _ => toast (toast_error msg_erreur_validation)).

Definition canValidate (u : option User.t) (demande : Demande.t) : bool :=
  match u with
  | None => false
  | Some x =>
      match User.role x with
      | superviseur => statut_eqb (Demande.statut demande) en_attente
      | pompiste => statut_eqb (Demande.statut demande) valide_superviseur
      | directeur => statut_eqb (Demande.statut demande) valide_pompiste
      | _ => false
      end
  end.

(** ** The new-request page *)

Module FuelRequestForm.
Record t := mk
    { id_vehicule : string; km_compteur : Z; site : string; mission : string;
      quantite_demandee : Q; raison : string }.
End FuelRequestForm.

(** The registered inputs as the user left them: a number input may be empty.
    Odometer entries are whole numbers, as the column is. *)
Module FormValues.
Record t := mk
    { id_vehicule : string; km_compteur : option Z; site : string;
      mission : string; quantite_demandee : option Q; raison : string }.
End FormValues.

(** One rule of [register(name, { required, min })]: the message of the
    first rule the value breaks. *)
Definition rule_required (value : string) (message : string) : option string :=
  if String.eqb value "" then Some message else None.

Definition rule_km_compteur (value : option Z) : option string :=
  match value with
  | None => Some "Le kilométrage est requis"
  | Some km => if km <? 0 then Some "Le kilométrage doit être positif" else None
  end.

Definition rule_quantite_demandee (value : option Q) : option string :=
  match value with
  | None => Some "La quantité est requise"
  | Some q => if Qle_bool (1 # 100) q then None
              else Some "La quantité doit être positive"
  end.

(** [formState.errors] after validation, by field. *)
Definition form_errors (v : FormValues.t) : list (string * string) :=
  let field name (r : option string) :=
    match r with Some m => [(name, m)] | None => [] end in
  field "id_vehicule" (rule_required (FormValues.id_vehicule v) "Le véhicule est requis") ++
  field "km_compteur" (rule_km_compteur (FormValues.km_compteur v)) ++
  field "quantite_demandee" (rule_quantite_demandee (FormValues.quantite_demandee v)) ++
  field "site" (rule_required (FormValues.site v) "Le site est requis") ++
  field "mission" (rule_required (FormValues.mission v) "La mission est requise") ++
  field "raison" (rule_required (FormValues.raison v) "La raison est requise").

(** The column types the migration gives to the numbers a page sends.

    [integer] ([km_compteur], [taille_fichier]): a value outside the 32-bit
    range is refused. *)
Definition fits_integer (z : Z) : bool :=
  (-2147483648 <=? z) && (z <=? 2147483647).

(** The integer nearest to [num / den], a tie going away from zero: the
    rounding of the store's [numeric] type. *)
Definition round_half_away (num : Z) (den : positive) : Z :=
  Z.sgn num * ((2 * Z.abs num + Z.pos den) / (2 * Z.pos den)).

(** [numeric(8,2)] ([quantite_demandee]): the value is rounded to two
    decimals; [centiemes] is the rounded value counted in hundredths. *)
Definition centiemes (q : Q) : Z := round_half_away (100 * Qnum q) (Qden q).

Definition rounded_2 (q : Q) : Q := centiemes q # 100.

(** The rounded value is refused when it needs more than six digits before
    the decimal point. *)
Definition fits_numeric_8_2 (q : Q) : bool := Z.abs (centiemes q) <? 100000000.

(** [.from('demandes_carburant').insert({...}).select().single()]: either the
    inserted row or the error. The values are first brought to the types of
    their columns, then the new row is put to the insert policy, then the
    vehicle reference is checked. *)
Definition insert_demande (env : Env) (data : FuelRequestForm.t)
    (id_utilisateur : string) (statut : StatutDemande)
    : Eff (StoreError + Demande.t) :=
  fun w =>
    let row := Demande.mk (uuid env InsertDemande) id_utilisateur
                 (FuelRequestForm.id_vehicule data)
                 (FuelRequestForm.km_compteur data)
                 (FuelRequestForm.site data) (FuelRequestForm.mission data)
                 (rounded_2 (FuelRequestForm.quantite_demandee data)) None
                 (FuelRequestForm.raison data) statut (now env) (now env) in
    if unavailable env InsertDemande then (w, inr (inl Unavailable))
    else if negb (fits_integer (FuelRequestForm.km_compteur data))
    then (w, inr (inl NumericOutOfRange))
    else if negb (fits_numeric_8_2 (FuelRequestForm.quantite_demandee data))
    then (w, inr (inl NumericOutOfRange))
    else if negb (policy_insert_demande (user (ui w)) row)
    then (w, inr (inl PolicyViolation))
    else if negb (vehicule_exists (db w) (FuelRequestForm.id_vehicule data))
    then (w, inr (inl ForeignKeyViolation))
    else (mkWorld (set_demandes (demandes_carburant (db w) ++ [row]) (db w)) (ui w),
          inr (inr row)).

(** [supabase.storage.from('justificatifs').upload(fileName, file)]. *)
Definition upload_object (env : Env) (n : nat) (fileName : string)
    : Eff (option StoreError) :=
  fun w =>
    if unavailable env (UploadObject n) then (w, inr (Some Unavailable))
    else if existsb (String.eqb fileName) (bucket (db w))
    then (w, inr (Some ObjectExists))
    else (mkWorld (set_bucket (bucket (db w) ++ [fileName]) (db w)) (ui w),
          inr None).

(** [.from('justificatifs').insert(justificatifs)]: one statement, all rows or
    none. *)
Definition insert_justificatifs (env : Env) (rows : list Justificatif.t)
    : Eff (option StoreError) :=
  fun w =>
    if unavailable env InsertJustificatifs then (w, inr (Some Unavailable))
    else if negb (forallb (fun j => fits_integer (Justificatif.taille_fichier j)) rows)
    then (w, inr (Some NumericOutOfRange))
    else if negb (forallb (policy_insert_justificatif (user (ui w)) (db w)) rows)
    then (w, inr (Some PolicyViolation))
    else (mkWorld (set_justificatifs (justificatifs (db w) ++ rows) (db w)) (ui w),
          inr None).

(** [name.split('.')]. *)
Fixpoint split_dot (s : string) : list string :=
  match s with
  | EmptyString => [EmptyString]
  | String a r =>
      if Ascii.eqb a "."%char then EmptyString :: split_dot r
      else match split_dot r with
           | h :: t => String a h :: t
           | [] => [String a EmptyString]
           end
  end.

Definition file_ext (name : string) : string := last (split_dot name) "".

Definition z_text (z : Z) : string := NilZero.string_of_int (Z.to_int z).

(** The body of the [uploadedFiles.map(async (file) => ...)] callback for the
    file at position [n]: its promise settles to the row or to the error. *)
Definition upload_one (env : Env) (demandeId : string) (n : nat) (file : File.t)
    : Eff (StoreError + Justificatif.t) :=
  let fileExt := file_ext (File.name file) in
  let fileName := demandeId ++ "/" ++ z_text (date_now env n) ++ "." ++ fileExt in
  uploadError <- upload_object env n fileName ;;
  match uploadError with
  | Some e => ret (inl e)
  | None =>
      ret (inr (Justificatif.mk (uuid env (UploadObject n)) demandeId
                  (public_url env fileName) (File.name file) (File.type file)
                  (File.size file) (now env)))
  end.

(** Every callback is started, whatever the others do. *)
Fixpoint upload_from (env : Env) (demandeId : string) (n : nat) (files : list File.t)
    : Eff (list (StoreError + Justificatif.t)) :=
  match files with
  | [] => ret []
  | file :: rest =>
      r <- upload_one env demandeId n file ;;
      rs <- upload_from env demandeId (S n) rest ;;
      ret (r :: rs)
  end.

(** [await Promise.all(promises)]: the rows when every promise is fulfilled,
    a throw of a rejection otherwise. *)
Fixpoint promise_all (settled : list (StoreError + Justificatif.t))
    : Eff (list Justificatif.t) :=
  match settled with
  | [] => ret []
  | inl e :: _ => throw e
  | inr row :: rest => rows <- promise_all rest ;; ret (row :: rows)
  end.

Definition uploadFiles (env : Env) (demandeId : string) : Eff unit :=
  c <- get_ui ;;
  settled <- upload_from env demandeId 0%nat (uploadedFiles c) ;;
  justificatifs <- promise_all settled ;;
  error <- insert_justificatifs env justificatifs ;;
  throw_if error.

Definition msg_erreur_creation : string := "Erreur lors de la création de la demande".
Definition msg_demande_creee : string := "Demande créée avec succès".

Definition onSubmit (env : Env) (data : FuelRequestForm.t) : Eff unit :=
  c <- get_ui ;;
  match user c with
  | None => ret tt
  | Some u =>
      setLoading true ;;
      try_catch_finally
        ((* Create fuel request *)
         created <- insert_demande env data (User.id u) en_attente ;;
         match created with
         | inl demandeError => throw demandeError
         | inr demande =>
             (* Upload files if any *)
             (if (0 <? length (uploadedFiles c))%nat
              then uploadFiles env (Demande.id demande)
              else ret tt) ;;
             (* Log action *)
             _ <- rpc_log_action env (Some (User.id u))
                    "Création demande carburant"
                    ("Véhicule: " ++ FuelRequestForm.id_vehicule data ++
                     ", Quantité: " ++
                     number_text env (FuelRequestForm.quantite_demandee data) ++ "L") ;;
             toast (toast_success msg_demande_creee) ;;
             navigate "/fuel-requests"
         end)
        (fun _ => toast (toast_error msg_erreur_creation))
        (setLoading false)
  end.

(** [handleSubmit(onSubmit)] of the form library: [onSubmit] runs with the
    values only when no registered rule is broken; otherwise the broken rules
    are the result and nothing else happens. *)
Definition handleSubmit (env : Env) (v : FormValues.t) : Eff (list (string * string)) :=
  match form_errors v, FormValues.km_compteur v, FormValues.quantite_demandee v with
  | [], Some km, Some q =>
      onSubmit env (FuelRequestForm.mk (FormValues.id_vehicule v) km
                      (FormValues.site v) (FormValues.mission v) q
                      (FormValues.raison v)) ;;
      ret []
  | errors, _, _ => ret errors
  end.

(** ** The specification's view of the workflow *)

(** One row of the transition table of the specification: current status,
    allowed actor role, next status on approve, next status on reject, level. *)
Record TableRow := mkRow
  { current : StatutDemande; actor : UserRole;
    on_approve : StatutDemande; on_reject : StatutDemande; level : Z }.

Definition transition_table : list TableRow :=
  [ mkRow en_attente superviseur valide_superviseur rejete 1;
    mkRow valide_superviseur pompiste valide_pompiste rejete 2;
    mkRow valide_pompiste directeur valide_dg rejete 3 ].

(** The table looked up by (current status, actor role); no entry is the
    unauthorized transition. *)
Definition table_entry (s : StatutDemande) (r : option UserRole) : option TableRow :=
  match r with
  | None => None
  | Some role =>
      find (fun row => statut_eqb (current row) s && role_eqb (actor row) role)
           transition_table
  end.

Definition table_decide (s : StatutDemande) (r : option UserRole)
    (outcome : StatutValidation) : option (StatutDemande * Z) :=
  match table_entry s r with
  | None => None
  | Some row =>
      Some (match outcome with approuve => on_approve row | v_rejete => on_reject row end,
            level row)
  end.

(** One step forward in the sequence, or into rejection. *)
Definition advances (s s' : StatutDemande) : bool :=
  match s, s' with
  | en_attente, valide_superviseur
  | valide_superviseur, valide_pompiste
  | valide_pompiste, valide_dg
  | en_attente, rejete | valide_superviseur, rejete | valide_pompiste, rejete => true
  | _, _ => false
  end.

Inductive forward : StatutDemande -> StatutDemande -> Prop :=
| forward_refl s : forward s s
| forward_step s s' s'' : advances s s' = true -> forward s' s'' -> forward s s''.

Definition terminal (s : StatutDemande) : bool :=
  match s with valide_dg | rejete => true | _ => false end.

(** The loaded copy of a request carries the status of its stored rows. *)
Definition synced (w : World) (demandeId : string) : bool :=
  match find (fun d => String.eqb (Demande.id d) demandeId) (demandes (ui w)) with
  | None => true
  | Some demande =>
      forallb (fun row => negb (String.eqb (Demande.id row) demandeId) ||
                          statut_eqb (Demande.statut row) (Demande.statut demande))
              (demandes_carburant (db w))
  end.

(** A decision taken in some session's browser against the shared store. *)
Record Decision := mkDecision
  { session : Client; d_env : Env; d_id : string;
    d_statut : StatutValidation; d_commentaire : option string }.

Definition decide_world (s : Db) (e : Decision) : World :=
  exec (handleValidation (d_env e) (d_id e) (d_statut e) (d_commentaire e))
       (mkWorld s (session e)).

Fixpoint run (s : Db) (es : list Decision) : Db :=
  match es with
  | [] => s
  | e :: rest => run (db (decide_world s e)) rest
  end.

(** Every decision of the run is taken on a list that is in step with the
    store for the request it decides. *)
Fixpoint fresh (s : Db) (es : list Decision) : bool :=
  match es with
  | [] => true
  | e :: rest =>
      synced (mkWorld s (session e)) (d_id e) && fresh (db (decide_world s e)) rest
  end.

Definition is_success (t : Toast) : bool :=
  match t with toast_success _ => true | toast_error _ => false end.

(** The call told its user that it went through. *)
Definition succeeded (w w' : World) : bool := existsb is_success (new_toasts w w').

(** The call told its user that it failed. *)
Definition reported_failure (w w' : World) : bool :=
  existsb (fun t => negb (is_success t)) (new_toasts w w').

(** All of the three writes of a decision, or none of them. *)
Definition all_or_nothing (s s' : Db) : Prop :=
  s' = s \/
  (demandes_carburant s' <> demandes_carburant s /\
   length (validations s') = S (length (validations s)) /\
   length (logs s') = S (length (logs s))).

(** The store rows of a request. *)
Definition rows_of (s : Db) (demandeId : string) : list Demande.t :=
  filter (fun d => String.eqb (Demande.id d) demandeId) (demandes_carburant s).

Definition vehicule_active (s : Db) (id : string) : bool :=
  existsb (fun v => String.eqb (Vehicule.id v) id && Vehicule.actif v) (vehicules s).

(** The preconditions of [submitRequest] as the specification lists them. *)
Definition spec_preconditions (w : World) (v : FormValues.t) : bool :=
  role_is (user (ui w)) chauffeur &&
  vehicule_active (db w) (FormValues.id_vehicule v) &&
  match FormValues.km_compteur v with Some km => 0 <=? km | None => false end &&
  match FormValues.quantite_demandee v with
  | Some q => negb (Qle_bool q 0)
  | None => false
  end.

(** ** Sample data: the demonstration accounts and one request *)

Definition env_with (failing : Call -> bool) : Env :=
  mkEnv 100 (fun n => 1700000000000 + Z.of_nat n)
        (fun c => match c with
                  | InsertDemande => "R2"
                  | InsertValidation => "VAL"
                  | RpcLogAction => "LOG"
                  | _ => "J"
                  end)
        failing (fun _ => "50") (fun name => "https://store/" ++ name).

Definition env_ok : Env := env_with (fun _ => false).

Definition env_refresh_fails : Env :=
  env_with (fun c => match c with SelectDemandes => true | _ => false end).

Definition env_insert_validation_fails : Env :=
  env_with (fun c => match c with InsertValidation => true | _ => false end).

Definition env_insert_demande_fails : Env :=
  env_with (fun c => match c with InsertDemande => true | _ => false end).

Definition env_upload_fails : Env :=
  env_with (fun c => match c with UploadObject _ => true | _ => false end).

Definition D1 : User.t := User.mk "D1" "Jean Dupont" "chauffeur@alh.com" chauffeur true 0.
Definition S1 : User.t := User.mk "S1" "Marie Martin" "superviseur@alh.com" superviseur true 0.
Definition F1 : User.t := User.mk "F1" "Ahmed Pompiste" "pompiste@alh.com" pompiste true 0.
Definition Dir1 : User.t := User.mk "Dir1" "Pierre Durand" "directeur@alh.com" directeur true 0.

Definition R1_in (s : StatutDemande) : Demande.t :=
  Demande.mk "R1" "D1" "V1" 1000 "North" "Transport" (50 # 1) None "routine" s 10 10.

Definition store_with (v1_actif : bool) (rows : list Demande.t) : Db :=
  mkDb [Vehicule.mk "V1" "ALH-001" "T1" v1_actif] rows [] [] [] [].

Definition browser (u : User.t) (loaded : list Demande.t) (files : list File.t) : Client :=
  mkClient (Some u) loaded files false false "/" [].

(** A supervisor looking at the pending request R1. *)
Definition w_pending : World :=
  mkWorld (store_with true [R1_in en_attente]) (browser S1 [R1_in en_attente] []).

(** A driver on the new-request page, with and without a file to attach. *)
Definition form_ok : FormValues.t :=
  FormValues.mk "V1" (Some 1000) "North" "Transport" (Some (50 # 1)) "routine".

Definition w_driver (v1_actif : bool) (files : list File.t) : World :=
  mkWorld (store_with v1_actif []) (browser D1 [] files).

Definition ticket : File.t := File.mk "ticket.pdf" "application/pdf" 2048.

(** A run of three decisions, each taken by the next role of the chain on a
    list that shows the request as the store has it. *)
Definition approval_chain : list Decision :=
  [ mkDecision (browser S1 [R1_in en_attente] []) env_ok "R1" approuve None;
    mkDecision (browser F1 [R1_in valide_superviseur] []) env_ok "R1" approuve None;
    mkDecision (browser Dir1 [R1_in valide_pompiste] []) env_ok "R1" approuve None ].

(** The store with a second request, authored by another driver. *)
Definition R2_of_D2 : Demande.t :=
  Demande.mk "R2" "D2" "V1" 2000 "South" "Livraison" (30 # 1) None "plein" en_attente 20 20.

Definition w_two_drivers (u : User.t) : World :=
  mkWorld (store_with true [R1_in en_attente; R2_of_D2]) (browser u [] []).

Definition data_ok : FuelRequestForm.t :=
  FuelRequestForm.mk "V1" 1000 "North" "Transport" (50 # 1) "routine".

(** ** What a handler leaves behind, in closed form *)

(** The store after the writes of a decision that passed the role gate: each
    write is kept as soon as it is made. *)
Definition store_after_decide (env : Env) (caller : option User.t) (demandeId : string)
    (statut : StatutValidation) (commentaire : option string)
    (newStatut : StatutDemande) (niveau : Z) (s : Db) : Db :=
  if unavailable env UpdateDemande then s
  else
    let s1 := set_demandes
                (write_statut env demandeId newStatut (demandes_carburant s)) s in
    if unavailable env InsertValidation || negb (demande_exists s demandeId) then s1
    else
      let s2 := set_validations
                  (validations s1 ++
                   [Validation.mk (uuid env InsertValidation) demandeId (auth_uid caller)
                      niveau statut commentaire (now env)]) s1 in
      if unavailable env RpcLogAction then s2
      else set_logs
             (logs s2 ++
              [LogAction.mk (uuid env RpcLogAction) (auth_uid caller)
                 ("Validation " ++ statut_validation_text statut ++
                  " - Niveau " ++ niveau_text niveau)
                 (Some ("Demande " ++ demandeId ++ " - " ++
                        match commentaire with Some t => t | None => "" end))
                 (now env)]) s2.

(** The component state after such a decision; [s] is the store before it and
    [s'] the store after it. *)
Definition client_after_decide (env : Env) (statut : StatutValidation)
    (demandeId : string) (s s' : Db) (c : Client) : Client :=
  if unavailable env UpdateDemande
     || unavailable env InsertValidation || negb (demande_exists s demandeId)
  then push_toast (toast_error msg_erreur_validation) c
  else
    let c1 := push_toast (toast_success (msg_succes statut)) c in
    with_showModal false
      (with_loading false
         (if unavailable env SelectDemandes
          then push_toast (toast_error msg_erreur_chargement) (with_loading true c1)
          else with_demandes (visible_demandes (user c) None s') (with_loading true c1))).

(** A stored row before and after: the same request, its status not behind. *)
Definition row_forward (r r' : Demande.t) : Prop :=
  Demande.id r' = Demande.id r /\ forward (Demande.statut r) (Demande.statut r').

Definition terminal_row (s : Db) (demandeId : string) : bool :=
  existsb (fun r => String.eqb (Demande.id r) demandeId && terminal (Demande.statut r))
          (demandes_carburant s).

(** Along a run, a decision on a request whose stored row is rejected or
    approved by the director writes nothing and reports no success. *)
Fixpoint terminal_never_decided (s : Db) (es : list Decision) : Prop :=
  match es with
  | [] => True
  | e :: rest =>
      (terminal_row s (d_id e) = true ->
       db (decide_world s e) = s /\
       succeeded (mkWorld s (session e)) (decide_world s e) = false) /\
      terminal_never_decided (db (decide_world s e)) rest
  end.

(** Uploading touches the bucket and the table of attachments only. *)
Definition only_files_differ (w w' : World) : Prop :=
  ui w' = ui w /\
  vehicules (db w') = vehicules (db w) /\
  demandes_carburant (db w') = demandes_carburant (db w) /\
  validations (db w') = validations (db w) /\
  logs (db w') = logs (db w).

(** The insert of [onSubmit] comes back with an error: the service failed,
    the odometer reading does not fit an [integer], the rounded quantity does
    not fit a [numeric(8,2)], the insert policy refused a caller who is no
    driver, or the vehicle reference points nowhere. *)
Definition insert_refused (env : Env) (w : World) (u : User.t)
    (data : FuelRequestForm.t) : bool :=
  unavailable env InsertDemande
  || negb (fits_integer (FuelRequestForm.km_compteur data))
  || negb (fits_numeric_8_2 (FuelRequestForm.quantite_demandee data))
  || negb (role_eqb (User.role u) chauffeur)
  || negb (vehicule_exists (db w) (FuelRequestForm.id_vehicule data)).

(** The row [onSubmit] inserts for [u]. *)
Definition new_demande (env : Env) (u : User.t) (data : FuelRequestForm.t) : Demande.t :=
  Demande.mk (uuid env InsertDemande) (User.id u)
    (FuelRequestForm.id_vehicule data) (FuelRequestForm.km_compteur data)
    (FuelRequestForm.site data) (FuelRequestForm.mission data)
    (rounded_2 (FuelRequestForm.quantite_demandee data)) None
    (FuelRequestForm.raison data) en_attente (now env) (now env).

(** The world [onSubmit] hands to [uploadFiles]: the request is in the store
    and the page shows its spinner. *)
Definition after_insert (env : Env) (w : World) (u : User.t)
    (data : FuelRequestForm.t) : World :=
  mkWorld (set_demandes (demandes_carburant (db w) ++ [new_demande env u data]) (db w))
          (with_loading true (ui w)).

(** There are files to attach and [await uploadFiles(demande.id)] throws,
    whatever made it throw. *)
Definition upload_fails (env : Env) (w : World) (u : User.t)
    (data : FuelRequestForm.t) : bool :=
  (0 <? length (uploadedFiles (ui w)))%nat &&
  match snd (uploadFiles env (uuid env InsertDemande) (after_insert env w u data)) with
  | inl _ => true
  | inr _ => false
  end.

(** ** Further definitions for the two pages *)

(** What a decision leaves of a stored request: everything but the status
    and the date the trigger stamps. *)
Definition keeps_request_data (r r' : Demande.t) : Prop :=
  Demande.id r' = Demande.id r /\
  Demande.id_utilisateur r' = Demande.id_utilisateur r /\
  Demande.id_vehicule r' = Demande.id_vehicule r /\
  Demande.km_compteur r' = Demande.km_compteur r /\
  Demande.site r' = Demande.site r /\
  Demande.mission r' = Demande.mission r /\
  Demande.quantite_demandee r' = Demande.quantite_demandee r /\
  Demande.quantite_servie r' = Demande.quantite_servie r /\
  Demande.raison r' = Demande.raison r /\
  Demande.date_demande r' = Demande.date_demande r.

(** A stored row before and after a decision on [demandeId]. *)
Definition row_kept (demandeId : string) (r r' : Demande.t) : Prop :=
  keeps_request_data r r' /\
  (String.eqb (Demande.id r) demandeId = false -> r' = r).

(** A stored row before and after the status write of a decision on
    [demandeId], made at time [t]: a row of the request carries the new
    status and the date of the write and is otherwise as it was; a row of
    another request is untouched. *)
Definition row_decided (demandeId : string) (next : StatutDemande) (t : Z)
    (r r' : Demande.t) : Prop :=
  if String.eqb (Demande.id r) demandeId
  then Demande.statut r' = next /\ Demande.date_modification r' = t /\
       keeps_request_data r r'
  else r' = r.

(** Newest first. *)
Definition newer_or_same (a b : Demande.t) : Prop :=
  Demande.date_demande b <= Demande.date_demande a.

(** *** File selection on the new-request page *)

Definition with_uploadedFiles (l : list File.t) (c : Client) : Client :=
  mkClient (user c) (demandes c) l (loading c) (showModal c) (location c)
           (toasts c).

(** [setUploadedFiles(prev => f(prev))]. *)
Definition setUploadedFiles (f : list File.t -> list File.t) : Eff unit :=
  modify_ui (fun c => with_uploadedFiles (f (uploadedFiles c)) c).

Definition accepted_types : list string :=
  ["image/jpeg"; "image/png"; "application/pdf"].

Definition isValidType (file : File.t) : bool :=
  existsb (String.eqb (File.type file)) accepted_types.

(** [file.size <= 5 * 1024 * 1024]. *)
Definition isValidSize (file : File.t) : bool :=
  File.size file <=? 5 * 1024 * 1024.

(** The callback of [files.filter(file => ...)] in [handleFileUpload]. *)
Definition check_file (file : File.t) : Eff bool :=
  if negb (isValidType file) then
    toast (toast_error (File.name file ++ ": Type de fichier non supporté")) ;;
    ret false
  else if negb (isValidSize file) then
    toast (toast_error (File.name file ++ ": Fichier trop volumineux (max 5MB)")) ;;
    ret false
  else ret true.

(** [files.filter(callback)], the callback run on each file in turn. *)
Fixpoint filter_files (files : list File.t) : Eff (list File.t) :=
  match files with
  | [] => ret []
  | file :: rest =>
      keep <- check_file file ;;
      kept <- filter_files rest ;;
      ret (if keep then file :: kept else kept)
  end.

Definition handleFileUpload (files : list File.t) : Eff unit :=
  validFiles <- filter_files files ;;
  setUploadedFiles (fun prev => (prev ++ validFiles)%list).

(** [l.filter((_, i) => p(i))], with [i] counted from [from]. *)
Fixpoint filter_index {A} (p : nat -> bool) (from : nat) (l : list A) : list A :=
  match l with
  | [] => []
  | x :: r => if p from then x :: filter_index p (S from) r
              else filter_index p (S from) r
  end.

Definition removeFile (index : nat) : Eff unit :=
  setUploadedFiles (filter_index (fun i => negb (Nat.eqb i index)) 0%nat).

(** A file that passes both checks of [handleFileUpload]. *)
Definition valid_file (file : File.t) : bool :=
  isValidType file && isValidSize file.

(** What the user does with the file input before submitting. *)
Inductive FileAction :=
| PickFiles (files : list File.t)
| RemoveFile (index : nat).

Definition file_action (a : FileAction) : Eff unit :=
  match a with
  | PickFiles files => handleFileUpload files
  | RemoveFile index => removeFile index
  end.

Fixpoint file_actions (l : list FileAction) (w : World) : World :=
  match l with
  | [] => w
  | a :: rest => file_actions rest (exec (file_action a) w)
  end.

Fixpoint contains_dot (s : string) : bool :=
  match s with
  | EmptyString => false
  | String a r => Ascii.eqb a "."%char || contains_dot r
  end.

(** The object name [uploadFiles] gives the file at position [n]. *)
Definition object_name (env : Env) (demandeId : string) (n : nat) (file : File.t)
    : string :=
  demandeId ++ "/" ++ z_text (date_now env n) ++ "." ++ file_ext (File.name file).

(** The row [uploadFiles] builds for the file at position [n]. *)
Definition justificatif_of (env : Env) (demandeId : string) (n : nat) (file : File.t)
    : Justificatif.t :=
  Justificatif.mk (uuid env (UploadObject n)) demandeId
    (public_url env (object_name env demandeId n file)) (File.name file)
    (File.type file) (File.size file) (now env).

Fixpoint justificatifs_from (env : Env) (demandeId : string) (n : nat)
    (files : list File.t) : list Justificatif.t :=
  match files with
  | [] => []
  | file :: rest =>
      justificatif_of env demandeId n file :: justificatifs_from env demandeId (S n) rest
  end.

(** An attachment row within the limits of the file input. *)
Definition valid_justificatif (j : Justificatif.t) : bool :=
  existsb (String.eqb (Justificatif.type_fichier j)) accepted_types &&
  (Justificatif.taille_fichier j <=? 5 * 1024 * 1024).

(** How the promises of [uploadFiles] settle, file by file from position [n]:
    to the row of the file or to an error. *)
Fixpoint settles (env : Env) (demandeId : string) (n : nat) (files : list File.t)
    (settled : list (StoreError + Justificatif.t)) : Prop :=
  match files, settled with
  | [], [] => True
  | file :: rest, r :: rs =>
      (r = inr (justificatif_of env demandeId n file) \/ exists e, r = inl e) /\
      settles env demandeId (S n) rest rs
  | _, _ => False
  end.

(** *** One session at the list page *)

(** A click on "Approuver" or "Rejeter", with what the outside does during
    the call. *)
Record Click := mkClick
  { c_env : Env; c_id : string; c_statut : StatutValidation;
    c_commentaire : option string }.

Definition click (w : World) (c : Click) : World :=
  exec (handleValidation (c_env c) (c_id c) (c_statut c) (c_commentaire c)) w.

Definition session_run (w : World) (cs : list Click) : World := fold_left click cs w.

(** The loaded list is in step with the store for each request it shows. *)
Definition in_step (w : World) : bool :=
  forallb (fun d => synced w (Demande.id d)) (demandes (ui w)).

(** The service answers the insert of the record and the refresh of the list
    at each click. *)
Definition record_and_refresh_answered (cs : list Click) : bool :=
  forallb (fun c => negb (unavailable (c_env c) InsertValidation) &&
                    negb (unavailable (c_env c) SelectDemandes)) cs.

(** *** More sample data *)

Definition A1 : User.t := User.mk "A1" "Administrateur Système" "admin@alh.com" admin true 0.

(** An environment in which every answer comes and the browser's clock reads
    the same millisecond for all files of a run. *)
Definition env_same_clock : Env :=
  mkEnv 100 (fun _ => 1700000000000)
        (fun c => match c with
                  | InsertDemande => "R2"
                  | InsertValidation => "VAL"
                  | RpcLogAction => "LOG"
                  | _ => "J"
                  end)
        (fun _ => false) (fun _ => "50") (fun name => "https://store/" ++ name).

Definition facture : File.t := File.mk "facture.pdf" "application/pdf" 4096.
Definition video : File.t := File.mk "trajet.mp4" "video/mp4" 4096.

Definition approve_R1 : Click := mkClick env_ok "R1" approuve None.

(** * Properties *)

(** ** Toasts shown by a call *)

Lemma new_toasts_app w w' ts :
  toasts (ui w') = (toasts (ui w) ++ ts)%list -> new_toasts w w' = ts.
Proof.
  unfold new_toasts. intros ->.
  induction (toasts (ui w)) as [|t l IH]; simpl; auto.
Qed.

Lemma new_toasts_same w : new_toasts w w = [].
Proof. unfold new_toasts. apply skipn_all. Qed.

Lemma new_toasts_push w s t :
  new_toasts w (mkWorld s (push_toast t (ui w))) = [t].
Proof. apply new_toasts_app. reflexivity. Qed.

(** ** The role gate *)

Lemma statut_eqb_eq a b : statut_eqb a b = true -> a = b.
Proof. destruct a, b; simpl; congruence. Qed.

Lemma statut_eqb_refl a : statut_eqb a a = true.
Proof. destruct a; reflexivity. Qed.

(** Case analysis on who calls, on what, with which outcome. *)
Ltac gate_cases x demande statut :=
  destruct (User.role x), (Demande.statut demande), statut; simpl.

(** The conditional chain of the handler is the table of the specification. *)
Lemma next_statut_table u demande statut :
  next_statut u demande statut =
  table_decide (Demande.statut demande) (option_map User.role u) statut.
Proof.
  unfold next_statut, role_is, table_decide, table_entry.
  destruct u as [x|]; [|reflexivity]. cbn [option_map].
  gate_cases x demande statut; reflexivity.
Qed.

(** Whoever passes the gate is one of the roles the store lets write. *)
Lemma next_statut_staff u demande statut r :
  next_statut u demande statut = Some r ->
  exists x, u = Some x /\ role_in_staff (User.role x) = true.
Proof.
  unfold next_statut, role_is. destruct u as [x|]; simpl; [|discriminate].
  intros H. exists x. split; [reflexivity|].
  destruct (User.role x); simpl in *; try reflexivity.
  discriminate.
Qed.

Lemma next_statut_advances u demande statut ns lv :
  next_statut u demande statut = Some (ns, lv) ->
  advances (Demande.statut demande) ns = true.
Proof.
  unfold next_statut, role_is. destruct u as [x|]; [|discriminate].
  gate_cases x demande statut;
    intros H; try discriminate; injection H as <- _; reflexivity.
Qed.

Lemma next_statut_terminal u demande statut :
  terminal (Demande.statut demande) = true -> next_statut u demande statut = None.
Proof.
  unfold next_statut, role_is. destruct u as [x|]; [|reflexivity].
  destruct (User.role x), (Demande.statut demande); simpl;
    try discriminate; reflexivity.
Qed.

(** The role that moved a request finds no branch for the status it wrote. *)
Lemma next_statut_not_twice u demande statut ns lv d' statut' :
  next_statut u demande statut = Some (ns, lv) ->
  Demande.statut d' = ns ->
  next_statut u d' statut' = None.
Proof.
  unfold next_statut, role_is. destruct u as [x|]; [|discriminate].
  intros H E. rewrite E. clear E.
  gate_cases x demande statut; simpl in H;
    try discriminate; injection H as <- _; reflexivity.
Qed.

Lemma canValidate_next_statut u demande statut :
  canValidate u demande = true <-> next_statut u demande statut <> None.
Proof.
  unfold canValidate, next_statut, role_is.
  destruct u as [x|]; [|simpl; split; [discriminate|congruence]].
  destruct (User.role x), (Demande.statut demande); simpl; split;
    try discriminate; try congruence; reflexivity.
Qed.

(** ** The status write *)

Lemma demande_exists_write env demandeId newStatut s id :
  existsb (fun dc => String.eqb (Demande.id dc) id)
          (write_statut env demandeId newStatut (demandes_carburant s))
  = demande_exists s id.
Proof.
  unfold demande_exists, write_statut.
  induction (demandes_carburant s) as [|d l IH]; simpl; [reflexivity|].
  rewrite IH. f_equal.
  destruct (String.eqb (Demande.id d) demandeId); reflexivity.
Qed.

Lemma in_write_statut env demandeId ns rows d :
  In d (write_statut env demandeId ns rows) ->
  String.eqb (Demande.id d) demandeId = true ->
  Demande.statut d = ns.
Proof.
  unfold write_statut. rewrite in_map_iff. intros (d0 & Hd & _) Hid.
  destruct (String.eqb (Demande.id d0) demandeId) eqn:H0; subst d.
  - reflexivity.
  - congruence.
Qed.

Lemma demandes_store_after_decide env caller demandeId statut commentaire ns lv s :
  demandes_carburant (store_after_decide env caller demandeId statut commentaire ns lv s) =
  if unavailable env UpdateDemande then demandes_carburant s
  else write_statut env demandeId ns (demandes_carburant s).
Proof.
  unfold store_after_decide.
  destruct (unavailable env UpdateDemande); [reflexivity|].
  destruct (_ || _); [reflexivity|].
  destruct (unavailable env RpcLogAction); reflexivity.
Qed.

(** ** The ordered select *)

Lemma insert_by_date_perm d l : Permutation (insert_by_date d l) (d :: l).
Proof.
  induction l as [|x r IH]; simpl; [reflexivity|].
  destruct (Demande.date_demande x <=? Demande.date_demande d); [reflexivity|].
  rewrite IH. apply perm_swap.
Qed.

Lemma order_by_date_desc_perm l : Permutation (order_by_date_desc l) l.
Proof.
  induction l as [|d r IH]; simpl; [reflexivity|].
  rewrite insert_by_date_perm. constructor. exact IH.
Qed.

Lemma filter_all {A} (p : A -> bool) l :
  (forall x, In x l -> p x = true) -> filter p l = l.
Proof.
  induction l as [|a r IH]; simpl; intros H; [reflexivity|].
  rewrite (H a (or_introl eq_refl)), IH; auto.
Qed.

Lemma filter_filter_same {A} (p q : A -> bool) l :
  (forall x, p x = true -> q x = true) -> filter p (filter q l) = filter p l.
Proof.
  intros H. induction l as [|a r IH]; simpl; [reflexivity|].
  destruct (q a) eqn:Hq; simpl.
  - rewrite IH. reflexivity.
  - destruct (p a) eqn:Hp; [rewrite (H a Hp) in Hq; discriminate|exact IH].
Qed.

Lemma visible_staff x s :
  role_in_staff (User.role x) = true ->
  visible_demandes (Some x) None s = order_by_date_desc (demandes_carburant s).
Proof.
  intros H. unfold visible_demandes. f_equal.
  rewrite filter_all by reflexivity.
  apply filter_all. intros d _.
  unfold policy_select_demande, caller_is_staff. rewrite H. apply orb_true_r.
Qed.

Lemma visible_chauffeur x s :
  User.role x = chauffeur ->
  visible_demandes (Some x) (Some (User.id x)) s =
  order_by_date_desc
    (filter (fun d => String.eqb (Demande.id_utilisateur d) (User.id x))
            (demandes_carburant s)).
Proof.
  intros H. unfold visible_demandes. f_equal.
  apply filter_filter_same. intros d Hd.
  unfold policy_select_demande, uid_is. rewrite Hd. reflexivity.
Qed.

Lemma find_order_in p l d :
  find p (order_by_date_desc l) = Some d -> In d l /\ p d = true.
Proof.
  intros H. apply find_some in H. destruct H as [Hin Hp]. split; [|exact Hp].
  eapply Permutation_in; [apply order_by_date_desc_perm|exact Hin].
Qed.

Lemma find_order_exists p l :
  existsb p l = true -> exists d, find p (order_by_date_desc l) = Some d.
Proof.
  intros H. destruct (find p (order_by_date_desc l)) as [d|] eqn:Hf; [eauto|].
  apply existsb_exists in H. destruct H as (x & Hin & Hp).
  pose proof (find_none _ _ Hf x) as Hn.
  rewrite Hn in Hp; [discriminate|].
  eapply Permutation_in; [symmetry; apply order_by_date_desc_perm|exact Hin].
Qed.

Lemma find_after_write env demandeId ns s :
  demande_exists s demandeId = true ->
  exists d, find (fun d => String.eqb (Demande.id d) demandeId)
              (order_by_date_desc (write_statut env demandeId ns (demandes_carburant s)))
            = Some d /\ Demande.statut d = ns.
Proof.
  intros He. rewrite <- (demande_exists_write env demandeId ns) in He.
  destruct (find_order_exists _ _ He) as [d Hd]. exists d. split; [exact Hd|].
  apply find_order_in in Hd. destruct Hd as [Hin Hid].
  eapply in_write_statut; eauto.
Qed.

Lemma fetchDemandes_cases env w :
  exec (fetchDemandes env) w =
  mkWorld (db w)
    (with_loading false
       (if unavailable env SelectDemandes
        then push_toast (toast_error msg_erreur_chargement) (with_loading true (ui w))
        else with_demandes
               (visible_demandes (user (ui w))
                  (if role_is (user (ui w)) chauffeur then auth_uid (user (ui w)) else None)
                  (db w))
               (with_loading true (ui w)))).
Proof.
  destruct w as [s c].
  unfold exec, fetchDemandes, try_catch_finally, try_catch, bind, get_ui,
    select_demandes, setLoading, setDemandes, modify_ui, throw_if, toast.
  cbn [db ui user with_loading fst snd].
  destruct (unavailable env SelectDemandes); reflexivity.
Qed.

Lemma nodup_key_eq {A B} (f : A -> B) l a b :
  NoDup (map f l) -> In a l -> In b l -> f a = f b -> a = b.
Proof.
  induction l as [|x r IH]; simpl; intros Hnd Ha Hb Hf; [contradiction|].
  inversion Hnd as [|y m Hnot Hnd']; subst.
  destruct Ha as [<-|Ha], Hb as [<-|Hb].
  - reflexivity.
  - exfalso. apply Hnot. rewrite Hf. apply in_map. exact Hb.
  - exfalso. apply Hnot. rewrite <- Hf. apply in_map. exact Ha.
  - apply IH; assumption.
Qed.

(** With [id] the primary key of [demandes_carburant], a list that was just
    loaded is in step with the store for every request. *)
Lemma fetchDemandes_synced env w demandeId :
  NoDup (map Demande.id (demandes_carburant (db w))) ->
  unavailable env SelectDemandes = false ->
  synced (exec (fetchDemandes env) w) demandeId = true.
Proof.
  intros Hnd Hsel. rewrite fetchDemandes_cases, Hsel. unfold synced.
  cbn [ui db demandes with_loading with_demandes].
  destruct (find _ _) as [d|] eqn:Hf; [|reflexivity].
  unfold visible_demandes in Hf. apply find_order_in in Hf. destruct Hf as [Hin Hid].
  apply filter_In in Hin. destruct Hin as [Hin _].
  apply filter_In in Hin. destruct Hin as [Hin _].
  apply forallb_forall. intros r Hr.
  destruct (String.eqb (Demande.id r) demandeId) eqn:Hrid; [|reflexivity].
  cbn [negb orb].
  apply String.eqb_eq in Hrid, Hid.
  rewrite (nodup_key_eq Demande.id _ r d Hnd Hr Hin) by congruence.
  apply statut_eqb_refl.
Qed.

(** C7. A driver's list holds exactly the requests the driver authored, and
    none of another user; a supervisor, pump attendant, director or
    administrator is sent every request; the store is left as it was. *)
Theorem fetchDemandes_visibility env w u :
  user (ui w) = Some u ->
  let w' := exec (fetchDemandes env) w in
  db w' = db w /\
  (unavailable env SelectDemandes = false ->
   match User.role u with
   | chauffeur =>
       Permutation (demandes (ui w'))
         (filter (fun d => String.eqb (Demande.id_utilisateur d) (User.id u))
                 (demandes_carburant (db w))) /\
       Forall (fun d => Demande.id_utilisateur d = User.id u) (demandes (ui w'))
   | _ => Permutation (demandes (ui w')) (demandes_carburant (db w))
   end).
Proof.
  intros Hu w'. subst w'. rewrite fetchDemandes_cases. split; [reflexivity|].
  intros Hsel. rewrite Hsel, Hu.
  cbn [ui demandes with_loading with_demandes role_is auth_uid option_map].
  destruct (User.role u) eqn:Hr; cbn [role_eqb];
    try (rewrite visible_staff by (rewrite Hr; reflexivity);
         apply order_by_date_desc_perm).
  rewrite (visible_chauffeur _ _ Hr).
  assert (HP := order_by_date_desc_perm
                  (filter (fun d => String.eqb (Demande.id_utilisateur d) (User.id u))
                          (demandes_carburant (db w)))).
  split; [exact HP|].
  apply Forall_forall. intros d Hd.
  apply (Permutation_in _ HP) in Hd. apply filter_In in Hd.
  apply String.eqb_eq. apply Hd.
Qed.

Lemma driver_sees_own_requests :
  user (ui (w_two_drivers D1)) = Some D1 /\
  let w' := exec (fetchDemandes env_ok) (w_two_drivers D1) in
  db w' = db (w_two_drivers D1) /\
  (unavailable env_ok SelectDemandes = false ->
   Permutation (demandes (ui w')) [R1_in en_attente] /\
   Forall (fun d => Demande.id_utilisateur d = "D1") (demandes (ui w'))).
Proof.
  split; [reflexivity|].
  exact (fetchDemandes_visibility env_ok (w_two_drivers D1) D1 eq_refl).
Defined.

(** ** The loaded list and the store *)

Lemma synced_rows s c demandeId demande :
  synced (mkWorld s c) demandeId = true ->
  find (fun d => String.eqb (Demande.id d) demandeId) (demandes c) = Some demande ->
  forall r, In r (demandes_carburant s) ->
            String.eqb (Demande.id r) demandeId = true ->
            Demande.statut r = Demande.statut demande.
Proof.
  unfold synced. cbn [ui db]. intros Hs Hf. rewrite Hf in Hs.
  intros r Hin Hid. rewrite forallb_forall in Hs. specialize (Hs r Hin).
  rewrite Hid in Hs. apply statut_eqb_eq. exact Hs.
Qed.

Lemma write_statut_decided env demandeId ns rows :
  Forall2 (row_decided demandeId ns (now env)) rows (write_statut env demandeId ns rows).
Proof.
  induction rows as [|r rows IH]; simpl; constructor; [|exact IH].
  unfold row_decided. destruct (String.eqb (Demande.id r) demandeId).
  - repeat split.
  - reflexivity.
Qed.

(** What an entry of the table says of the pair it was looked up with. *)
Lemma table_entry_row s r row :
  table_entry s r = Some row ->
  In row transition_table /\ current row = s /\ r = Some (actor row) /\
  In (actor row, level row) [(superviseur, 1); (pompiste, 2); (directeur, 3)].
Proof.
  unfold table_entry. destruct r as [role|]; [|discriminate].
  destruct s, role; cbn; intros H; try discriminate; injection H as <-; cbn;
    repeat split; auto.
Qed.

(** ** One decision *)

Section Decide.

Context (env : Env) (demandeId : string) (statut : StatutValidation)
        (commentaire : option string).

(** The handler, branch by branch. *)
Lemma handleValidation_cases w :
  exec (handleValidation env demandeId statut commentaire) w =
  match find (fun d => String.eqb (Demande.id d) demandeId) (demandes (ui w)) with
  | None => w
  | Some demande =>
      match next_statut (user (ui w)) demande statut with
      | None => mkWorld (db w) (push_toast (toast_error msg_non_autorisee) (ui w))
      | Some (newStatut, niveau) =>
          let s' := store_after_decide env (user (ui w)) demandeId statut
                      commentaire newStatut niveau (db w) in
          mkWorld s' (client_after_decide env statut demandeId (db w) s' (ui w))
      end
  end.
Proof.
  destruct w as [s c].
  unfold exec, handleValidation, try_catch, bind, get_ui. cbn [db ui fst snd].
  destruct (find _ (demandes c)) as [demande|]; [|reflexivity].
  destruct (next_statut (user c) demande statut) as [[newStatut niveau]|] eqn:Hn;
    [|reflexivity].
  destruct (next_statut_staff _ _ _ _ Hn) as (x & Hu & Hstaff).
  assert (Hc : role_is (Some x) chauffeur = false).
  { unfold role_is. destruct (User.role x); simpl in *; congruence. }
  destruct c as [u dl files ld sm loc ts]. cbn [user] in *. subst u.
  unfold store_after_decide, client_after_decide.
  unfold update_statut, policy_update_demande, caller_is_staff.
  cbn [db ui user].
  destruct (unavailable env UpdateDemande); [reflexivity|].
  rewrite Hstaff. cbn [throw_if ret orb db ui].
  unfold insert_validation, policy_insert_validation, caller_is_staff, uid_is, auth_uid.
  cbn [db ui user option_map Validation.valide_par demandes_carburant set_demandes].
  rewrite Hstaff, String.eqb_refl. cbn [andb negb].
  unfold demande_exists at 1. cbn [demandes_carburant set_demandes].
  rewrite !demande_exists_write.
  destruct (unavailable env InsertValidation); [reflexivity|].
  cbn [orb].
  destruct (demande_exists s demandeId) eqn:He; cbn [negb]; [|reflexivity].
  cbn [throw_if ret].
  unfold rpc_log_action, policy_insert_log. cbn [db ui user negb].
  unfold toast, fetchDemandes, try_catch_finally, try_catch, bind, get_ui,
    select_demandes, setLoading, setDemandes, setShowModal, modify_ui, throw_if.
  destruct (unavailable env RpcLogAction);
    cbn [db ui user fst snd with_loading push_toast];
    rewrite Hc;
    destruct (unavailable env SelectDemandes); reflexivity.
Qed.

Lemma toasts_client_after_decide s s' c :
  toasts (client_after_decide env statut demandeId s s' c) =
  (toasts c ++
   if unavailable env UpdateDemande || unavailable env InsertValidation
      || negb (demande_exists s demandeId)
   then [toast_error msg_erreur_validation]
   else toast_success (msg_succes statut) ::
        if unavailable env SelectDemandes
        then [toast_error msg_erreur_chargement]
        else [])%list.
Proof.
  unfold client_after_decide.
  destruct (_ || _ || _); [reflexivity|].
  destruct (unavailable env SelectDemandes); cbn.
  - rewrite <- app_assoc. reflexivity.
  - reflexivity.
Qed.

Lemma new_toasts_decide s s' s'' w :
  new_toasts w (mkWorld s'' (client_after_decide env statut demandeId s s' (ui w))) =
  if unavailable env UpdateDemande || unavailable env InsertValidation
     || negb (demande_exists s demandeId)
  then [toast_error msg_erreur_validation]
  else toast_success (msg_succes statut) ::
       if unavailable env SelectDemandes
       then [toast_error msg_erreur_chargement]
       else [].
Proof. apply new_toasts_app. cbn [ui]. apply toasts_client_after_decide. Qed.

(** C1, as the handler has it. The table is read at the status the request
    has in the caller's loaded list, with the caller's role. For a pair the
    table lists, every stored row of the request is rewritten to the status
    the row of the table gives for the outcome, stamped with the date of the
    write and otherwise left as it was, while the rows of other requests are
    untouched, unless the store fails the update and nothing is written; at
    most one validation record is added, for this request, with this outcome
    and at the level of that row of the table. When the loaded list is in step
    with the store, the status so replaced is the current status of that row.
    For a pair the table does not list, the toast "Action non autorisée" is
    shown and nothing else changes, in the store or in the loaded list. *)
Theorem decide_follows_transition_table w demande :
  find (fun d => String.eqb (Demande.id d) demandeId) (demandes (ui w)) = Some demande ->
  let w' := exec (handleValidation env demandeId statut commentaire) w in
  match table_entry (Demande.statut demande) (option_map User.role (user (ui w))) with
  | Some row =>
      let next := match statut with
                  | approuve => on_approve row
                  | v_rejete => on_reject row
                  end in
      In row transition_table /\
      current row = Demande.statut demande /\
      option_map User.role (user (ui w)) = Some (actor row) /\
      (if unavailable env UpdateDemande
       then db w' = db w
       else Forall2 (row_decided demandeId next (now env))
              (demandes_carburant (db w)) (demandes_carburant (db w'))) /\
      (exists added,
         validations (db w') = (validations (db w) ++ added)%list /\
         (length added <= 1)%nat /\
         Forall (fun v => Validation.id_demande v = demandeId /\
                          Validation.niveau_validation v = level row /\
                          Validation.statut_validation v = statut) added) /\
      (synced w demandeId = true ->
       forall r, In r (demandes_carburant (db w)) ->
                 Demande.id r = demandeId -> Demande.statut r = current row)
  | None =>
      w' = mkWorld (db w) (push_toast (toast_error msg_non_autorisee) (ui w))
  end.
Proof.
  intros Hfind w'. subst w'.
  rewrite handleValidation_cases, Hfind, next_statut_table. unfold table_decide.
  destruct (table_entry _ _) as [row|] eqn:Ht; [|reflexivity].
  destruct (table_entry_row _ _ _ Ht) as (Hin & Hcur & Hrole & _).
  cbv zeta. cbn [db].
  split; [exact Hin|]. split; [exact Hcur|]. split; [exact Hrole|].
  split; [|split].
  - rewrite demandes_store_after_decide. unfold store_after_decide.
    destruct (unavailable env UpdateDemande); [reflexivity|].
    apply write_statut_decided.
  - unfold store_after_decide.
    destruct (unavailable env UpdateDemande).
    { exists []. rewrite app_nil_r. repeat split; [cbn; lia|constructor]. }
    destruct (_ || _).
    { exists []. rewrite app_nil_r. repeat split; [cbn; lia|constructor]. }
    eexists [_]. split.
    + destruct (unavailable env RpcLogAction); reflexivity.
    + split; [cbn; lia|]. constructor; [|constructor]. repeat split.
  - intros Hs r Hr Hid. rewrite Hcur. destruct w as [s c]. cbn [db ui] in *.
    apply (synced_rows s c demandeId demande Hs Hfind r Hr).
    apply String.eqb_eq. exact Hid.
Qed.

(** C2, as the handler has it. The three writes are made one after the other
    and each is kept as soon as it is made: a failed status update leaves the
    store as it was; when the update went through and the validation record
    is refused, the new status stays, no record and no log entry are written,
    and the failure toast is shown; when both went through the call reports
    success, whether or not the log entry was written. *)
Theorem decide_writes_one_after_the_other w demande newStatut niveau :
  find (fun d => String.eqb (Demande.id d) demandeId) (demandes (ui w)) = Some demande ->
  next_statut (user (ui w)) demande statut = Some (newStatut, niveau) ->
  let w' := exec (handleValidation env demandeId statut commentaire) w in
  let written := write_statut env demandeId newStatut (demandes_carburant (db w)) in
  let record := Validation.mk (uuid env InsertValidation) demandeId
                  (auth_uid (user (ui w))) niveau statut commentaire (now env) in
  (unavailable env UpdateDemande = true ->
     db w' = db w /\ new_toasts w w' = [toast_error msg_erreur_validation]) /\
  (unavailable env UpdateDemande = false ->
     demandes_carburant (db w') = written /\
     if unavailable env InsertValidation || negb (demande_exists (db w) demandeId)
     then validations (db w') = validations (db w) /\
          logs (db w') = logs (db w) /\
          new_toasts w w' = [toast_error msg_erreur_validation]
     else validations (db w') = (validations (db w) ++ [record])%list /\
          length (logs (db w')) =
            (if unavailable env RpcLogAction then length (logs (db w))
             else S (length (logs (db w)))) /\
          succeeded w w' = true).
Proof.
  intros Hfind Hnext w' written record. subst w' written record.
  rewrite handleValidation_cases, Hfind, Hnext. cbn [db ui].
  unfold succeeded.
  split; intros Hup.
  - split.
    + unfold store_after_decide. rewrite Hup. reflexivity.
    + rewrite new_toasts_decide, Hup. reflexivity.
  - unfold store_after_decide. rewrite Hup.
    destruct (unavailable env InsertValidation || negb (demande_exists (db w) demandeId))
      eqn:Hins.
    + repeat split; try reflexivity.
      rewrite new_toasts_decide, Hup. cbn [orb]. rewrite Hins. reflexivity.
    + rewrite new_toasts_decide, Hup. cbn [orb]. rewrite Hins.
      destruct (unavailable env RpcLogAction); cbn.
      * repeat split; reflexivity.
      * repeat split; try reflexivity. rewrite length_app, Nat.add_comm. reflexivity.
Qed.

(** C3, as the handler has it. A decision that reports success has added
    exactly one validation record, for this request, by this caller, with
    this outcome and comment. Its level is the level of the row of the table
    for the status the request has in the caller's loaded list and the
    caller's role: 1 for the supervisor, 2 for the fueler, 3 for the director.
    The request is in the store, and when the loaded list is in step with the
    store that status is the stored one. *)
Theorem successful_decide_one_validation w :
  let w' := exec (handleValidation env demandeId statut commentaire) w in
  succeeded w w' = true ->
  exists demande row,
    find (fun d => String.eqb (Demande.id d) demandeId) (demandes (ui w)) = Some demande /\
    table_entry (Demande.statut demande) (option_map User.role (user (ui w))) = Some row /\
    In row transition_table /\
    current row = Demande.statut demande /\
    option_map User.role (user (ui w)) = Some (actor row) /\
    In (actor row, level row) [(superviseur, 1); (pompiste, 2); (directeur, 3)] /\
    validations (db w') =
      (validations (db w) ++
       [Validation.mk (uuid env InsertValidation) demandeId (auth_uid (user (ui w)))
          (level row) statut commentaire (now env)])%list /\
    demande_exists (db w) demandeId = true /\
    (synced w demandeId = true ->
     forall r, In r (demandes_carburant (db w)) ->
               Demande.id r = demandeId -> Demande.statut r = current row).
Proof.
  intros w'. subst w'. rewrite handleValidation_cases. unfold succeeded.
  destruct (find _ _) as [demande|] eqn:Hfind.
  2:{ rewrite new_toasts_same. discriminate. }
  rewrite next_statut_table. unfold table_decide.
  destruct (table_entry _ _) as [row|] eqn:Ht.
  2:{ rewrite new_toasts_push. discriminate. }
  rewrite new_toasts_decide.
  intros Hs. exists demande, row.
  destruct (table_entry_row _ _ _ Ht) as (Hin & Hcur & Hrole & Hlvl).
  split; [reflexivity|]. split; [exact Ht|]. split; [exact Hin|].
  split; [exact Hcur|]. split; [exact Hrole|]. split; [exact Hlvl|].
  cbn [db]. unfold store_after_decide.
  destruct (unavailable env UpdateDemande); [discriminate Hs|].
  cbn [orb] in Hs |- *.
  destruct (unavailable env InsertValidation); [discriminate Hs|].
  cbn [orb] in Hs |- *.
  destruct (demande_exists (db w) demandeId) eqn:He; [|discriminate Hs].
  cbn [negb]. split; [destruct (unavailable env RpcLogAction); reflexivity|].
  split; [reflexivity|].
  intros Hsy r Hr Hid. rewrite Hcur. destruct w as [s c]. cbn [db ui] in *.
  apply (synced_rows s c demandeId demande Hsy Hfind r Hr).
  apply String.eqb_eq. exact Hid.
Qed.

(** C6, as the handler has it. A decision on an identifier that is not in the
    loaded list returns at once: the store and the component state are
    untouched and no toast is shown, which sets it apart from the refused
    decision and its "Action non autorisée". *)
Theorem decide_unknown_request_is_silent w :
  find (fun d => String.eqb (Demande.id d) demandeId) (demandes (ui w)) = None ->
  let w' := exec (handleValidation env demandeId statut commentaire) w in
  w' = w /\ new_toasts w w' = [] /\
  new_toasts w w' <> [toast_error msg_non_autorisee].
Proof.
  intros Hfind w'. subst w'. rewrite handleValidation_cases, Hfind.
  rewrite new_toasts_same. repeat split. discriminate.
Qed.

(** C10. [canValidate] shows the buttons for exactly the (status, role) pairs
    the table lists, and these are exactly the pairs for which the handler
    does not end in its "Action non autorisée" branch. *)
Theorem canValidate_is_the_gate w demande :
  find (fun d => String.eqb (Demande.id d) demandeId) (demandes (ui w)) = Some demande ->
  let w' := exec (handleValidation env demandeId statut commentaire) w in
  (canValidate (user (ui w)) demande = true <->
   table_entry (Demande.statut demande) (option_map User.role (user (ui w))) <> None) /\
  (canValidate (user (ui w)) demande = false <->
   new_toasts w w' = [toast_error msg_non_autorisee]).
Proof.
  intros Hfind w'. subst w'. split.
  - rewrite (canValidate_next_statut _ _ statut), next_statut_table.
    unfold table_decide. destruct (table_entry _ _); split; congruence.
  - rewrite handleValidation_cases, Hfind.
    destruct (canValidate (user (ui w)) demande) eqn:Hc.
    + apply (canValidate_next_statut _ _ statut) in Hc.
      destruct (next_statut _ _ _) as [[n l]|]; [|congruence].
      rewrite new_toasts_decide.
      split; [discriminate|].
      destruct (_ || _ || _); [|destruct statut; discriminate].
      intros H. apply (f_equal (fun l => match l with
                                         | [toast_error m] => String.length m
                                         | _ => 0%nat end)) in H.
      vm_compute in H. discriminate H.
    + destruct (next_statut _ _ _) as [r|] eqn:Hn.
      * assert (canValidate (user (ui w)) demande = true)
          by (apply (canValidate_next_statut _ _ statut); congruence).
        congruence.
      * rewrite new_toasts_push. split; reflexivity.
Qed.

End Decide.

(** C1, as stated, fails: the supervisor rejects R1, the refresh of the list
    fails, and the approval the supervisor then makes on the list that still
    shows R1 as pending is not refused: the stored status goes from [rejete]
    to [valide_superviseur], though the table has no row for a supervisor and
    a rejected request. *)
Lemma stale_list_decision_outside_table :
  let w1 := exec (handleValidation env_refresh_fails "R1" v_rejete None) w_pending in
  let w2 := exec (handleValidation env_ok "R1" approuve None) w1 in
  map Demande.statut (rows_of (db w1) "R1") = [rejete] /\
  option_map User.role (user (ui w1)) = Some superviseur /\
  table_entry rejete (Some superviseur) = None /\
  new_toasts w1 w2 = [toast_success (msg_succes approuve)] /\
  map Demande.statut (rows_of (db w2) "R1") = [valide_superviseur].
Proof. vm_compute. repeat split. Qed.

Lemma supervisor_approval_of_pending :
  let w' := exec (handleValidation env_ok "R1" approuve None) w_pending in
  find (fun d => String.eqb (Demande.id d) "R1") (demandes (ui w_pending))
    = Some (R1_in en_attente) /\
  Forall2 (row_decided "R1" valide_superviseur (now env_ok))
    (demandes_carburant (db w_pending)) (demandes_carburant (db w')) /\
  (exists added,
     validations (db w') = (validations (db w_pending) ++ added)%list /\
     (length added <= 1)%nat /\
     Forall (fun v => Validation.id_demande v = "R1" /\
                      Validation.niveau_validation v = 1 /\
                      Validation.statut_validation v = approuve) added) /\
  (synced w_pending "R1" = true ->
   forall r, In r (demandes_carburant (db w_pending)) ->
             Demande.id r = "R1" -> Demande.statut r = en_attente).
Proof.
  cbv zeta. split; [reflexivity|].
  pose proof (decide_follows_transition_table env_ok "R1" approuve None w_pending
                (R1_in en_attente) eq_refl) as H.
  cbv zeta in H.
  change (table_entry (Demande.statut (R1_in en_attente))
            (option_map User.role (user (ui w_pending))))
    with (Some (mkRow en_attente superviseur valide_superviseur rejete 1)) in H.
  cbv iota in H. destruct H as (_ & _ & _ & Hrows & Hval & Hsync).
  split; [exact Hrows|]. split; [exact Hval|exact Hsync].
Defined.

(** C2, as stated, fails: the supervisor rejects R1, the status update goes
    through, the insert of the validation record fails; the store is left with
    the new status and neither record nor log entry. *)
Lemma status_kept_without_validation_record :
  let w' := exec (handleValidation env_insert_validation_fails "R1" v_rejete None)
                 w_pending in
  map Demande.statut (rows_of (db w_pending) "R1") = [en_attente] /\
  map Demande.statut (rows_of (db w') "R1") = [rejete] /\
  validations (db w') = [] /\
  ~ all_or_nothing (db w_pending) (db w').
Proof.
  cbv zeta. repeat split.
  intros [H | (_ & H & _)]; vm_compute in H; discriminate H.
Qed.

Lemma rejection_with_failed_record_insert :
  let w := w_pending in
  let env := env_insert_validation_fails in
  let w' := exec (handleValidation env "R1" v_rejete None) w in
  unavailable env UpdateDemande = false /\
  demandes_carburant (db w') = write_statut env "R1" rejete (demandes_carburant (db w)) /\
  validations (db w') = validations (db w) /\
  logs (db w') = logs (db w) /\
  new_toasts w w' = [toast_error msg_erreur_validation].
Proof.
  cbv zeta. split; [reflexivity|].
  exact (proj2 (decide_writes_one_after_the_other env_insert_validation_fails "R1"
                  v_rejete None w_pending (R1_in en_attente) rejete 1 eq_refl eq_refl)
               eq_refl).
Defined.

(** C3, as stated, fails: the supervisor approves R1, the refresh of the list
    fails, and the same approval made again on the list that still shows R1
    as pending reports success and adds a record of level 1, while the stored
    status is [valide_superviseur], for which the table gives a supervisor no
    level at all. *)
Lemma stale_list_level_for_unlisted_pair :
  let w1 := exec (handleValidation env_refresh_fails "R1" approuve None) w_pending in
  let w2 := exec (handleValidation env_ok "R1" approuve None) w1 in
  map Demande.statut (rows_of (db w1) "R1") = [valide_superviseur] /\
  option_map User.role (user (ui w1)) = Some superviseur /\
  table_entry valide_superviseur (Some superviseur) = None /\
  succeeded w1 w2 = true /\
  map Validation.niveau_validation (validations (db w1)) = [1] /\
  map Validation.niveau_validation (validations (db w2)) = [1; 1].
Proof. vm_compute. repeat split. Qed.

Lemma approval_records_level_one :
  let w' := exec (handleValidation env_ok "R1" approuve None) w_pending in
  succeeded w_pending w' = true /\
  exists demande row,
    find (fun d => String.eqb (Demande.id d) "R1") (demandes (ui w_pending)) = Some demande /\
    table_entry (Demande.statut demande) (option_map User.role (user (ui w_pending)))
      = Some row /\
    In row transition_table /\
    current row = Demande.statut demande /\
    option_map User.role (user (ui w_pending)) = Some (actor row) /\
    In (actor row, level row) [(superviseur, 1); (pompiste, 2); (directeur, 3)] /\
    validations (db w') =
      (validations (db w_pending) ++
       [Validation.mk (uuid env_ok InsertValidation) "R1" (auth_uid (user (ui w_pending)))
          (level row) approuve None (now env_ok)])%list /\
    demande_exists (db w_pending) "R1" = true /\
    (synced w_pending "R1" = true ->
     forall r, In r (demandes_carburant (db w_pending)) ->
               Demande.id r = "R1" -> Demande.statut r = current row).
Proof.
  cbv zeta. split; [reflexivity|].
  exact (successful_decide_one_validation env_ok "R1" approuve None w_pending eq_refl).
Defined.

(** C6, as stated, fails: a decision on an identifier the list does not hold
    reports no failure to anybody. *)
Lemma unknown_request_reports_nothing :
  let w' := exec (handleValidation env_ok "R404" approuve None) w_pending in
  find (fun d => String.eqb (Demande.id d) "R404") (demandes (ui w_pending)) = None /\
  demande_exists (db w_pending) "R404" = false /\
  reported_failure w_pending w' = false /\
  new_toasts w_pending w' = [].
Proof. vm_compute. repeat split. Qed.

Lemma decide_on_R404_is_silent :
  find (fun d => String.eqb (Demande.id d) "R404") (demandes (ui w_pending)) = None /\
  let w' := exec (handleValidation env_ok "R404" approuve None) w_pending in
  w' = w_pending /\ new_toasts w_pending w' = [] /\
  new_toasts w_pending w' <> [toast_error msg_non_autorisee].
Proof.
  split; [reflexivity|].
  exact (decide_unknown_request_is_silent env_ok "R404" approuve None w_pending eq_refl).
Defined.

Lemma supervisor_canValidate_pending :
  find (fun d => String.eqb (Demande.id d) "R1") (demandes (ui w_pending))
    = Some (R1_in en_attente) /\
  let w' := exec (handleValidation env_ok "R1" approuve None) w_pending in
  (canValidate (user (ui w_pending)) (R1_in en_attente) = true <->
   table_entry (Demande.statut (R1_in en_attente))
               (option_map User.role (user (ui w_pending))) <> None) /\
  (canValidate (user (ui w_pending)) (R1_in en_attente) = false <->
   new_toasts w_pending w' = [toast_error msg_non_autorisee]).
Proof.
  split; [reflexivity|].
  exact (canValidate_is_the_gate env_ok "R1" approuve None w_pending
           (R1_in en_attente) eq_refl).
Defined.

(** ** A decision made twice *)

(** C4, as stated, fails: the supervisor approves R1, the refresh of the list
    fails, and the same approval made again on the list that still shows R1
    as pending goes through and adds a second level-1 record. *)
Lemma stale_list_duplicates_validation :
  let w1 := exec (handleValidation env_refresh_fails "R1" approuve None) w_pending in
  let w2 := exec (handleValidation env_ok "R1" approuve None) w1 in
  succeeded w_pending w1 = true /\
  map Demande.statut (rows_of (db w1) "R1") = [valide_superviseur] /\
  succeeded w1 w2 = true /\
  map Validation.niveau_validation (validations (db w2)) = [1; 1].
Proof. vm_compute. repeat split. Qed.

(** C4, as the handler has it. When a decision reported success and the
    refresh of the list that follows it went through, the same decision made
    again is refused in the gate's last branch, with "Action non autorisée":
    the store is left as the first call left it, so no second validation
    record is written. *)
Theorem repeated_decide_is_refused env1 env2 w demandeId statut commentaire :
  let w1 := exec (handleValidation env1 demandeId statut commentaire) w in
  let w2 := exec (handleValidation env2 demandeId statut commentaire) w1 in
  succeeded w w1 = true ->
  unavailable env1 SelectDemandes = false ->
  w2 = mkWorld (db w1) (push_toast (toast_error msg_non_autorisee) (ui w1)).
Proof.
  intros w1 w2 Hs Hsel. subst w2.
  rewrite (handleValidation_cases env2 demandeId statut commentaire w1).
  subst w1. revert Hs. rewrite handleValidation_cases. unfold succeeded.
  destruct (find _ (demandes (ui w))) as [demande|].
  2:{ rewrite new_toasts_same. discriminate. }
  destruct (next_statut _ _ _) as [[ns lv]|] eqn:Hn.
  2:{ rewrite new_toasts_push. discriminate. }
  rewrite new_toasts_decide. cbn [db ui].
  destruct (next_statut_staff _ _ _ _ Hn) as (x & Hu & Hstaff).
  unfold client_after_decide at 1 2.
  destruct (unavailable env1 UpdateDemande || unavailable env1 InsertValidation
            || negb (demande_exists (db w) demandeId)) eqn:Hfail; [discriminate|].
  intros _. rewrite Hsel.
  cbn [demandes with_showModal with_loading with_demandes user push_toast].
  apply orb_false_elim in Hfail. destruct Hfail as [Hfail He].
  apply orb_false_elim in Hfail. destruct Hfail as [Hup _].
  apply negb_false_iff in He.
  rewrite Hu, (visible_staff _ _ Hstaff), demandes_store_after_decide, Hup.
  destruct (find_after_write env1 demandeId ns (db w) He) as (d' & Hd' & Hst).
  rewrite Hd'. rewrite <- Hu.
  rewrite (next_statut_not_twice _ _ _ _ _ d' statut Hn Hst). reflexivity.
Qed.

Lemma second_approval_is_refused :
  let w1 := exec (handleValidation env_ok "R1" approuve None) w_pending in
  let w2 := exec (handleValidation env_ok "R1" approuve None) w1 in
  succeeded w_pending w1 = true /\
  unavailable env_ok SelectDemandes = false /\
  w2 = mkWorld (db w1) (push_toast (toast_error msg_non_autorisee) (ui w1)).
Proof.
  cbv zeta. split; [reflexivity|]. split; [reflexivity|].
  exact (repeated_decide_is_refused env_ok env_ok w_pending "R1" approuve None
           eq_refl eq_refl).
Defined.

(** ** Runs of decisions *)

Lemma forward_trans a b c : forward a b -> forward b c -> forward a c.
Proof.
  induction 1 as [|a a' b Hadv _ IH]; [auto|].
  intros Hc. eapply forward_step; eauto.
Qed.

(** Nothing lies ahead of a terminal status. *)
Lemma forward_terminal a b : terminal a = true -> forward a b -> b = a.
Proof.
  intros Ht H. destruct H as [|a a' b Hadv _]; [reflexivity|].
  destruct a, a'; simpl in *; discriminate.
Qed.

Lemma Forall2_row_forward_refl l : Forall2 row_forward l l.
Proof.
  induction l; constructor; auto. split; [reflexivity|constructor].
Qed.

Lemma Forall2_row_forward_trans l1 l2 l3 :
  Forall2 row_forward l1 l2 -> Forall2 row_forward l2 l3 -> Forall2 row_forward l1 l3.
Proof.
  intros H. revert l3. induction H as [|a b l1 l2 [Hi Hf] _ IH]; intros l3 H23.
  - inversion H23. constructor.
  - inversion H23 as [|b' c l2' l3' [Hi' Hf'] Ht]; subst. constructor.
    + split; [congruence|eapply forward_trans; eauto].
    + apply IH. exact Ht.
Qed.

Lemma write_statut_forward env demandeId ns rows old :
  advances old ns = true ->
  (forall r, In r rows -> String.eqb (Demande.id r) demandeId = true ->
             Demande.statut r = old) ->
  Forall2 row_forward rows (write_statut env demandeId ns rows).
Proof.
  intros Hadv. induction rows as [|r rows IH]; simpl; intros H; constructor.
  - destruct (String.eqb (Demande.id r) demandeId) eqn:Hid.
    + split; [reflexivity|]. cbn. rewrite (H r (or_introl eq_refl) Hid).
      eapply forward_step; [exact Hadv|constructor].
    + split; [reflexivity|constructor].
  - apply IH. intros r' Hin. apply H. right. exact Hin.
Qed.

Lemma decide_step_forward s e :
  synced (mkWorld s (session e)) (d_id e) = true ->
  Forall2 row_forward (demandes_carburant s) (demandes_carburant (db (decide_world s e))).
Proof.
  intros Hs. unfold decide_world. rewrite handleValidation_cases. cbn [ui db].
  destruct (find _ _) as [demande|] eqn:Hf; [|apply Forall2_row_forward_refl].
  destruct (next_statut _ _ _) as [[ns lv]|] eqn:Hn; [|apply Forall2_row_forward_refl].
  cbn [db]. rewrite demandes_store_after_decide.
  destruct (unavailable _ UpdateDemande); [apply Forall2_row_forward_refl|].
  eapply write_statut_forward.
  - eapply next_statut_advances. exact Hn.
  - eapply synced_rows; eauto.
Qed.

Lemma decide_step_terminal s e :
  synced (mkWorld s (session e)) (d_id e) = true ->
  terminal_row s (d_id e) = true ->
  db (decide_world s e) = s /\
  succeeded (mkWorld s (session e)) (decide_world s e) = false.
Proof.
  intros Hs Ht. unfold decide_world, succeeded. rewrite handleValidation_cases. cbn [ui db].
  destruct (find _ _) as [demande|] eqn:Hf.
  2:{ rewrite new_toasts_same. split; reflexivity. }
  unfold terminal_row in Ht. apply existsb_exists in Ht.
  destruct Ht as (r & Hin & Hr). apply andb_prop in Hr. destruct Hr as [Hid Hterm].
  rewrite (synced_rows _ _ _ _ Hs Hf r Hin Hid) in Hterm.
  rewrite (next_statut_terminal _ _ _ Hterm).
  split; [reflexivity|].
  change (session e) with (ui (mkWorld s (session e))) at 2.
  rewrite new_toasts_push. reflexivity.
Qed.

(** C5, as stated, fails: the supervisor rejects R1, the refresh of the list
    fails, and an approval made on the list that still shows R1 as pending
    goes through: the stored status leaves [rejete] for [valide_superviseur]. *)
Lemma rejected_request_approved_from_stale_list :
  let w1 := exec (handleValidation env_refresh_fails "R1" v_rejete None) w_pending in
  let w2 := exec (handleValidation env_ok "R1" approuve None) w1 in
  map Demande.statut (rows_of (db w_pending) "R1") = [en_attente] /\
  map Demande.statut (rows_of (db w1) "R1") = [rejete] /\
  succeeded w1 w2 = true /\
  map Demande.statut (rows_of (db w2) "R1") = [valide_superviseur].
Proof. vm_compute. repeat split. Qed.

(** C5, as the handler has it. Along any run of decisions, by any sessions,
    in which each decision is taken on a list that shows the decided request
    with its stored status, every stored request keeps its identity and its
    status only moves forward through the sequence or into rejection; and a
    decision on a request whose stored status is rejected or approved by the
    director writes nothing and reports no success. *)
Theorem fresh_runs_only_move_forward s es :
  fresh s es = true ->
  Forall2 row_forward (demandes_carburant s) (demandes_carburant (run s es)) /\
  terminal_never_decided s es.
Proof.
  revert s. induction es as [|e rest IH]; intros s Hf; simpl in *.
  - split; [apply Forall2_row_forward_refl|exact I].
  - apply andb_prop in Hf. destruct Hf as [Hs Hrest].
    destruct (IH _ Hrest) as [Hfw Hterm]. split.
    + eapply Forall2_row_forward_trans; [apply decide_step_forward; exact Hs|exact Hfw].
    + split; [|exact Hterm]. intros Ht. apply decide_step_terminal; assumption.
Qed.

Lemma approval_chain_moves_forward :
  let s := store_with true [R1_in en_attente] in
  fresh s approval_chain = true /\
  map Demande.statut (demandes_carburant (run s approval_chain)) = [valide_dg] /\
  Forall2 row_forward (demandes_carburant s) (demandes_carburant (run s approval_chain)) /\
  terminal_never_decided s approval_chain.
Proof.
  cbv zeta. split; [reflexivity|]. split; [reflexivity|].
  exact (fresh_runs_only_move_forward (store_with true [R1_in en_attente])
           approval_chain eq_refl).
Defined.

(** ** The new-request page *)

Lemma only_files_differ_refl w : only_files_differ w w.
Proof. repeat split. Qed.

Lemma only_files_differ_trans w1 w2 w3 :
  only_files_differ w1 w2 -> only_files_differ w2 w3 -> only_files_differ w1 w3.
Proof.
  unfold only_files_differ. intros (a & b & c & d & e) (a' & b' & c' & d' & e').
  repeat split; congruence.
Qed.

Lemma upload_one_run env demandeId n file w :
  exists w' r,
    upload_one env demandeId n file w = (w', inr r) /\
    only_files_differ w w' /\
    (unavailable env (UploadObject n) = true -> exists e, r = inl e).
Proof.
  unfold upload_one, bind, upload_object, ret.
  destruct (unavailable env (UploadObject n)).
  - eexists _, _. split; [reflexivity|]. split; [apply only_files_differ_refl|eauto].
  - destruct (existsb _ _).
    + eexists _, _. split; [reflexivity|].
      split; [apply only_files_differ_refl|discriminate].
    + eexists _, _. split; [reflexivity|]. split; [repeat split|discriminate].
Qed.

Lemma upload_from_run env demandeId files : forall n w,
  exists w' rs,
    upload_from env demandeId n files w = (w', inr rs) /\
    only_files_differ w w' /\
    ((exists k, (k < length files)%nat /\ unavailable env (UploadObject (n + k)) = true) ->
     exists e, In (inl e) rs).
Proof.
  induction files as [|file rest IH]; intros n w; simpl.
  - eexists _, _. split; [reflexivity|]. split; [apply only_files_differ_refl|].
    intros (k & Hk & _). inversion Hk.
  - unfold bind.
    destruct (upload_one_run env demandeId n file w) as (w1 & r & -> & Hd1 & Hr).
    destruct (IH (S n) w1) as (w2 & rs & -> & Hd2 & Hrs).
    eexists _, _. split; [reflexivity|].
    split; [eapply only_files_differ_trans; eauto|].
    intros (k & Hk & Hun). destruct k as [|k].
    + rewrite Nat.add_0_r in Hun. destruct (Hr Hun) as [e ->]. exists e. left. reflexivity.
    + destruct Hrs as [e He].
      * exists k. split; [lia|]. rewrite Nat.add_succ_comm. exact Hun.
      * exists e. right. exact He.
Qed.

Lemma promise_all_run settled w :
  (exists rows, promise_all settled w = (w, inr rows) /\
                forall e, ~ In (inl e) settled) \/
  (exists e, promise_all settled w = (w, inl e)).
Proof.
  induction settled as [|[e|row] rest IH]; simpl.
  - left. eexists. split; [reflexivity|]. intros e [].
  - right. exists e. reflexivity.
  - unfold bind. destruct IH as [(rows & -> & Hn)|(e & ->)].
    + left. eexists. split; [reflexivity|].
      intros e [H|H]; [discriminate|]. eapply Hn; eauto.
    + right. exists e. reflexivity.
Qed.

Lemma uploadFiles_run env demandeId w :
  exists w' r,
    uploadFiles env demandeId w = (w', r) /\
    only_files_differ w w' /\
    ((exists k, (k < length (uploadedFiles (ui w)))%nat /\
                unavailable env (UploadObject k) = true) ->
     exists e, r = inl e).
Proof.
  unfold uploadFiles, bind, get_ui.
  destruct (upload_from_run env demandeId (uploadedFiles (ui w)) 0%nat w)
    as (w1 & rs & -> & Hd & Hfail).
  destruct (promise_all_run rs w1) as [(rows & -> & Hno)|(e & ->)].
  - unfold insert_justificatifs, throw_if.
    destruct (unavailable env InsertJustificatifs).
    + eexists _, _. split; [reflexivity|]. split; [exact Hd|eauto].
    + destruct (negb (forallb (fun j => fits_integer _) rows)).
      { eexists _, _. split; [reflexivity|]. split; [exact Hd|eauto]. }
      destruct (negb _).
      * eexists _, _. split; [reflexivity|]. split; [exact Hd|eauto].
      * eexists _, _. split; [reflexivity|]. split.
        -- eapply only_files_differ_trans; [exact Hd|]. repeat split.
        -- intros H. destruct (Hfail H) as [e He]. exfalso. eapply Hno; eauto.
  - eexists _, _. split; [reflexivity|]. split; [exact Hd|eauto].
Qed.

Lemma onSubmit_refused env w u data :
  user (ui w) = Some u ->
  insert_refused env w u data = true ->
  exec (onSubmit env data) w =
  mkWorld (db w)
    (with_loading false
       (push_toast (toast_error msg_erreur_creation) (with_loading true (ui w)))).
Proof.
  intros Hu Hr. destruct w as [s c]. cbn [ui db] in *.
  unfold exec, onSubmit, bind at 1, get_ui. cbn [ui fst snd]. rewrite Hu.
  unfold bind at 1, setLoading at 1, modify_ui. cbn [db ui].
  unfold insert_refused in Hr. cbn [db] in Hr.
  unfold try_catch_finally, try_catch, bind at 1, insert_demande,
    policy_insert_demande, uid_is.
  cbn [db ui user with_loading Demande.id_utilisateur]. rewrite Hu.
  rewrite String.eqb_refl. cbn [andb].
  destruct (unavailable env InsertDemande); [reflexivity|].
  destruct (fits_integer (FuelRequestForm.km_compteur data));
    cbn [negb orb] in *; [|reflexivity].
  destruct (fits_numeric_8_2 (FuelRequestForm.quantite_demandee data));
    cbn [negb orb] in *; [|reflexivity].
  destruct (role_eqb (User.role u) chauffeur); cbn [negb orb] in *; [|reflexivity].
  rewrite Hr. reflexivity.
Qed.

Lemma onSubmit_accepted env w u data :
  user (ui w) = Some u ->
  insert_refused env w u data = false ->
  exec (onSubmit env data) w =
  let w1 := mkWorld (set_demandes (demandes_carburant (db w) ++ [new_demande env u data])
                                  (db w))
                    (with_loading true (ui w)) in
  let (w2, r) := (if (0 <? length (uploadedFiles (ui w)))%nat
                  then uploadFiles env (uuid env InsertDemande)
                  else ret tt) w1 in
  match r with
  | inl _ =>
      mkWorld (db w2)
        (with_loading false (push_toast (toast_error msg_erreur_creation) (ui w2)))
  | inr _ =>
      mkWorld
        (if unavailable env RpcLogAction || negb (policy_insert_log (user (ui w2)))
         then db w2
         else set_logs
                (logs (db w2) ++
                 [LogAction.mk (uuid env RpcLogAction) (Some (User.id u))
                    "Création demande carburant"
                    (Some ("Véhicule: " ++ FuelRequestForm.id_vehicule data ++
                           ", Quantité: " ++
                           number_text env (FuelRequestForm.quantite_demandee data) ++ "L"))
                    (now env)])
                (db w2))
        (with_loading false
           (with_location "/fuel-requests"
              (push_toast (toast_success msg_demande_creee) (ui w2))))
  end.
Proof.
  intros Hu Hr. destruct w as [s c]. cbn [ui db] in *.
  unfold insert_refused in Hr. cbn [db] in Hr.
  apply orb_false_elim in Hr. destruct Hr as [Hr Hv].
  apply orb_false_elim in Hr. destruct Hr as [Hr Hrole].
  apply orb_false_elim in Hr. destruct Hr as [Hr Hq].
  apply orb_false_elim in Hr. destruct Hr as [Hun Hkm].
  apply negb_false_iff in Hv, Hrole, Hq, Hkm.
  unfold exec, onSubmit, bind at 1, get_ui. cbn [ui fst snd]. rewrite Hu.
  unfold bind at 1, setLoading at 1, modify_ui. cbn [db ui].
  unfold try_catch_finally, try_catch, bind at 1, insert_demande,
    policy_insert_demande, uid_is.
  cbn [db ui user with_loading Demande.id_utilisateur]. rewrite Hu.
  rewrite String.eqb_refl, Hun, Hkm, Hq, Hrole, Hv. cbn [andb negb Demande.id].
  fold (new_demande env u data).
  cbv zeta.
  unfold bind at 1.
  destruct ((if (0 <? length (uploadedFiles c))%nat
             then uploadFiles env (uuid env InsertDemande) else ret tt) _)
    as [w2 [e|[]]].
  - reflexivity.
  - unfold bind, rpc_log_action, toast, navigate, setLoading, modify_ui.
    destruct (unavailable env RpcLogAction); cbn [orb].
    + reflexivity.
    + destruct (negb (policy_insert_log (user (ui w2)))); reflexivity.
Qed.

Lemma onSubmit_created env w u data :
  user (ui w) = Some u ->
  insert_refused env w u data = false ->
  let w' := exec (onSubmit env data) w in
  demandes_carburant (db w') =
    (demandes_carburant (db w) ++ [new_demande env u data])%list /\
  ((exists k, (k < length (uploadedFiles (ui w)))%nat /\
              unavailable env (UploadObject k) = true) ->
   logs (db w') = logs (db w) /\
   ui w' = with_loading false
             (push_toast (toast_error msg_erreur_creation) (with_loading true (ui w)))) /\
  (uploadedFiles (ui w) = [] ->
   ui w' = with_loading false
             (with_location "/fuel-requests"
                (push_toast (toast_success msg_demande_creee) (with_loading true (ui w))))).
Proof.
  intros Hu Hr w'. subst w'. rewrite (onSubmit_accepted env w u data Hu Hr). cbv zeta.
  set (w1 := mkWorld _ (with_loading true (ui w))).
  destruct (0 <? length (uploadedFiles (ui w)))%nat eqn:Hlen.
  - destruct (uploadFiles_run env (uuid env InsertDemande) w1)
      as (w2 & r & Hup & (Hui & _ & Hdem & _ & Hlogs) & Hfail).
    rewrite Hup.
    assert (Hnn : uploadedFiles (ui w) = [] -> False).
    { intros Hnil. rewrite Hnil in Hlen. discriminate. }
    destruct r as [e|[]]; cbn [db ui].
    + rewrite Hdem, Hlogs, Hui. split; [reflexivity|].
      split; [intros _; split; reflexivity|]. intros H. destruct (Hnn H).
    + split.
      * destruct (_ || _); cbn [demandes_carburant set_logs]; exact Hdem.
      * split; [|intros H; destruct (Hnn H)].
        intros H. destruct (Hfail H) as [e He]. discriminate He.
  - assert (Hnil : uploadedFiles (ui w) = []).
    { destruct (uploadedFiles (ui w)); [reflexivity|discriminate]. }
    unfold ret. cbn [db ui]. split.
    + destruct (_ || _); reflexivity.
    + split; [|reflexivity].
      intros (k & Hk & _). rewrite Hnil in Hk. inversion Hk.
Qed.

Lemma exec_then_ret {A B} (m : Eff A) (b : B) w :
  exec (m ;; ret b) w = exec m w.
Proof.
  unfold exec, bind, ret. destruct (m w) as [w' [e|a]]; reflexivity.
Qed.

Lemma form_errors_nil v :
  form_errors v = [] ->
  exists km q,
    FormValues.km_compteur v = Some km /\ FormValues.quantite_demandee v = Some q /\
    0 <= km /\ (1 # 100 <= q)%Q /\
    FormValues.id_vehicule v <> "" /\ FormValues.site v <> "" /\
    FormValues.mission v <> "" /\ FormValues.raison v <> "".
Proof.
  unfold form_errors, rule_required, rule_km_compteur, rule_quantite_demandee.
  destruct v as [idv km site mission q raison]. cbn [FormValues.id_vehicule
    FormValues.km_compteur FormValues.site FormValues.mission
    FormValues.quantite_demandee FormValues.raison].
  destruct (String.eqb_spec idv ""); [discriminate|].
  destruct km as [km|]; [|discriminate].
  destruct (Z.ltb_spec km 0); [discriminate|].
  destruct q as [q|]; [|discriminate].
  destruct (Qle_bool (1 # 100) q) eqn:Hq; [|discriminate].
  destruct (String.eqb_spec site ""); [discriminate|].
  destruct (String.eqb_spec mission ""); [discriminate|].
  destruct (String.eqb_spec raison ""); [discriminate|].
  intros _. exists km, q. apply Qle_bool_iff in Hq. repeat split; assumption.
Qed.

(** ** The column types *)

Lemma round_half_away_nearest num den :
  Z.abs (2 * Z.pos den * round_half_away num den - 2 * num) <= Z.pos den.
Proof.
  unfold round_half_away.
  pose proof (Pos2Z.is_pos den) as Hd.
  assert (Hk : forall a, 0 <= a ->
            -(Z.pos den) < 2 * Z.pos den * ((2 * a + Z.pos den) / (2 * Z.pos den)) - 2 * a
              <= Z.pos den).
  { intros a Ha.
    pose proof (Z.div_mod (2 * a + Z.pos den) (2 * Z.pos den) ltac:(lia)) as Hdm.
    pose proof (Z.mod_pos_bound (2 * a + Z.pos den) (2 * Z.pos den) ltac:(lia)) as Hm.
    lia. }
  destruct (Z.lt_trichotomy num 0) as [Hn|[Hn|Hn]].
  - rewrite (Z.sgn_neg num Hn), (Z.abs_neq num) by lia.
    specialize (Hk (- num) ltac:(lia)). lia.
  - subst num. cbn [Z.sgn]. lia.
  - rewrite (Z.sgn_pos num Hn), (Z.abs_eq num) by lia.
    specialize (Hk num ltac:(lia)). lia.
Qed.

(** The stored quantity is the submitted one to within half a hundredth. *)
Lemma rounded_2_nearest q :
  (q - (1 # 200) <= rounded_2 q)%Q /\ (rounded_2 q <= q + (1 # 200))%Q.
Proof.
  unfold rounded_2, centiemes.
  pose proof (round_half_away_nearest (100 * Qnum q) (Qden q)) as H.
  destruct q as [n d]. cbn [Qnum Qden] in *.
  unfold Qle, Qminus, Qplus, Qopp. cbn [Qnum Qden].
  rewrite !Pos2Z.inj_mul. pose proof (Pos2Z.is_pos d). lia.
Qed.

(** A quantity entered with at most two decimals is stored as entered. *)
Lemma rounded_2_exact q c : q == c # 100 -> rounded_2 q = c # 100.
Proof.
  unfold Qeq, rounded_2, centiemes, round_half_away. cbn [Qnum Qden].
  intros H. f_equal.
  pose proof (Pos2Z.is_pos (Qden q)) as Hd.
  replace (100 * Qnum q) with (c * Z.pos (Qden q)) by lia.
  assert (Hk : forall a, 0 <= a ->
            (2 * (a * Z.pos (Qden q)) + Z.pos (Qden q)) / (2 * Z.pos (Qden q)) = a).
  { intros a Ha. symmetry. apply (Z.div_unique _ _ a (Z.pos (Qden q))); lia. }
  destruct (Z.lt_trichotomy c 0) as [Hc|[Hc|Hc]].
  - rewrite Z.sgn_neg, Z.abs_neq by nia.
    replace (- (c * Z.pos (Qden q))) with ((- c) * Z.pos (Qden q)) by lia.
    rewrite Hk by lia. lia.
  - subst c. reflexivity.
  - rewrite Z.sgn_pos, Z.abs_eq by nia. rewrite Hk by lia. lia.
Qed.

Lemma fits_integer_nonneg km :
  0 <= km -> fits_integer km = negb (2147483647 <? km).
Proof.
  intros H. unfold fits_integer.
  destruct (Z.leb_spec (-2147483648) km); [|lia].
  destruct (Z.leb_spec km 2147483647), (Z.ltb_spec 2147483647 km); try lia; reflexivity.
Qed.

(** For a quantity that is not negative, the column refuses exactly the
    values from 999999.995 on: those that round to 1000000.00 or more. *)
Lemma fits_numeric_8_2_nonneg q :
  (0 <= q)%Q -> fits_numeric_8_2 q = negb (Qle_bool (999999995 # 1000) q).
Proof.
  unfold fits_numeric_8_2, centiemes, round_half_away, Qle_bool, Qle.
  destruct q as [n d]. cbn [Qnum Qden]. intros Hq.
  pose proof (Pos2Z.is_pos d) as Hd.
  assert (Hn : 0 <= n) by lia.
  set (k := (2 * Z.abs (100 * n) + Z.pos d) / (2 * Z.pos d)).
  assert (Hk : 2 * Z.pos d * k <= 200 * n + Z.pos d < 2 * Z.pos d * k + 2 * Z.pos d).
  { subst k. rewrite Z.abs_eq by lia.
    pose proof (Z.div_mod (2 * (100 * n) + Z.pos d) (2 * Z.pos d) ltac:(lia)) as Hdm.
    pose proof (Z.mod_pos_bound (2 * (100 * n) + Z.pos d) (2 * Z.pos d) ltac:(lia)) as Hm.
    lia. }
  assert (Hk0 : 0 <= k) by nia.
  destruct (Z.eq_dec n 0) as [->|Hn0].
  - cbn [Z.mul Z.sgn Z.abs]. destruct (Z.leb_spec (999999995 * Z.pos d) (0 * 1000)); [lia|].
    reflexivity.
  - rewrite Z.sgn_pos by lia. rewrite Z.mul_1_l, (Z.abs_eq k) by lia.
    destruct (Z.ltb_spec k 100000000), (Z.leb_spec (999999995 * Z.pos d) (n * 1000));
      try reflexivity; exfalso; nia.
Qed.

(** What the store makes of a submission that kept the rules of the form. *)
Lemma insert_refused_form env w u idv km site mission q raison :
  0 <= km -> (1 # 100 <= q)%Q ->
  insert_refused env w u (FuelRequestForm.mk idv km site mission q raison) =
  unavailable env InsertDemande
  || (2147483647 <? km)
  || Qle_bool (999999995 # 1000) q
  || negb (role_eqb (User.role u) chauffeur)
  || negb (vehicule_exists (db w) idv).
Proof.
  intros Hkm Hq. unfold insert_refused.
  cbn [FuelRequestForm.km_compteur FuelRequestForm.quantite_demandee
       FuelRequestForm.id_vehicule].
  rewrite (fits_integer_nonneg km Hkm), fits_numeric_8_2_nonneg, !negb_involutive.
  - reflexivity.
  - eapply Qle_trans; [|exact Hq]. discriminate.
Qed.

(** C8, as stated, fails: vehicle V1 has been taken out of service, a driver
    submits a request for it, and the request is created and reported as a
    success. *)
Lemma inactive_vehicle_request_created :
  let w := w_driver false [] in
  let w' := exec (handleSubmit env_ok form_ok) w in
  vehicule_active (db w) (FormValues.id_vehicule form_ok) = false /\
  spec_preconditions w form_ok = false /\
  succeeded w w' = true /\
  map Demande.statut (demandes_carburant (db w')) = [en_attente].
Proof. vm_compute. repeat split. Qed.

(** C8, as the page and the store have it. A submission that breaks a rule of
    the form (a vehicle chosen, an odometer reading of at least 0, a quantity
    of at least 0.01, site, mission and reason filled in) changes nothing. One
    that keeps them all reaches the store. When the service answers, the
    odometer reading is at most 2147483647 (the column is an [integer]), the
    quantity is below 999999.995 (the column is a [numeric(8,2)]), the caller
    is a driver and the vehicle reference exists, exactly one request is
    added, in status [en_attente], owned by the caller, dated now, with the
    submitted vehicle and odometer reading and with the quantity rounded to
    two decimals: within half a hundredth of the submitted one, and equal to
    it when it was entered with at most two decimals. Otherwise nothing is
    added and the creation failure toast is shown. Whether the vehicle is in
    service is not looked at. *)
Theorem handleSubmit_creates_pending_request env w v u :
  user (ui w) = Some u ->
  let w' := exec (handleSubmit env v) w in
  match form_errors v with
  | _ :: _ => w' = w
  | [] =>
      exists km q,
        FormValues.km_compteur v = Some km /\ 0 <= km /\
        FormValues.quantite_demandee v = Some q /\ (1 # 100 <= q)%Q /\
        if unavailable env InsertDemande
           || (2147483647 <? km)
           || Qle_bool (999999995 # 1000) q
           || negb (role_eqb (User.role u) chauffeur)
           || negb (vehicule_exists (db w) (FormValues.id_vehicule v))
        then db w' = db w /\ new_toasts w w' = [toast_error msg_erreur_creation]
        else exists row,
               demandes_carburant (db w') = (demandes_carburant (db w) ++ [row])%list /\
               Demande.statut row = en_attente /\
               Demande.id_utilisateur row = User.id u /\
               Demande.id_vehicule row = FormValues.id_vehicule v /\
               Demande.km_compteur row = km /\
               Demande.date_demande row = now env /\
               Demande.quantite_demandee row = rounded_2 q /\
               (q - (1 # 200) <= rounded_2 q)%Q /\
               (rounded_2 q <= q + (1 # 200))%Q /\
               (forall c, q == c # 100 -> rounded_2 q = c # 100)
  end.
Proof.
  intros Hu w'. subst w'. unfold handleSubmit.
  destruct (form_errors v) as [|err errs] eqn:Hf.
  2:{ destruct err. reflexivity. }
  destruct (form_errors_nil v Hf) as (km & q & Hkm & Hq & Hkm0 & Hq0 & _).
  rewrite Hkm, Hq. exists km, q.
  split; [reflexivity|]. split; [assumption|].
  split; [reflexivity|]. split; [assumption|].
  rewrite exec_then_ret.
  rewrite <- (insert_refused_form env w u (FormValues.id_vehicule v) km
                (FormValues.site v) (FormValues.mission v) q (FormValues.raison v)
                Hkm0 Hq0).
  set (data := FuelRequestForm.mk _ _ _ _ _ _).
  destruct (insert_refused env w u data) eqn:Hr.
  - rewrite (onSubmit_refused env w u data Hu Hr). split; [reflexivity|].
    apply new_toasts_app. reflexivity.
  - destruct (onSubmit_created env w u data Hu Hr) as [Hd _].
    exists (new_demande env u data). split; [exact Hd|].
    destruct (rounded_2_nearest q) as [Hlo Hhi].
    repeat split; try assumption. intros c Hc. apply rounded_2_exact. exact Hc.
Qed.

Lemma driver_submission_creates_request :
  let w := w_driver true [] in
  user (ui w) = Some D1 /\
  exists km q,
    FormValues.km_compteur form_ok = Some km /\ 0 <= km /\
    FormValues.quantite_demandee form_ok = Some q /\ (1 # 100 <= q)%Q /\
    exists row,
      demandes_carburant (db (exec (handleSubmit env_ok form_ok) w)) =
        (demandes_carburant (db w) ++ [row])%list /\
      Demande.statut row = en_attente /\
      Demande.id_utilisateur row = User.id D1 /\
      Demande.id_vehicule row = FormValues.id_vehicule form_ok /\
      Demande.km_compteur row = km /\
      Demande.date_demande row = now env_ok /\
      Demande.quantite_demandee row = rounded_2 q /\
      (q - (1 # 200) <= rounded_2 q)%Q /\
      (rounded_2 q <= q + (1 # 200))%Q /\
      (forall c, q == c # 100 -> rounded_2 q = c # 100).
Proof.
  cbv zeta. split; [reflexivity|].
  pose proof (handleSubmit_creates_pending_request env_ok (w_driver true []) form_ok D1
                eq_refl) as H.
  cbv zeta in H. change (form_errors form_ok) with (@nil (string * string)) in H.
  cbv iota in H. destruct H as (km & q & Hkm & Hkm0 & Hq & Hq0 & H).
  injection Hkm as <-. injection Hq as <-.
  exists 1000, (50 # 1).
  split; [reflexivity|]. split; [exact Hkm0|].
  split; [reflexivity|]. split; [exact Hq0|]. exact H.
Defined.

(** * Further properties of the two pages *)

(** ** What a decision leaves alone *)

Lemma write_statut_kept env demandeId ns rows :
  Forall2 (row_kept demandeId) rows (write_statut env demandeId ns rows).
Proof.
  induction rows as [|r rows IH]; simpl; constructor; [|exact IH].
  destruct (String.eqb (Demande.id r) demandeId) eqn:Hid.
  - split; [repeat split|intros H; congruence].
  - split; [repeat split|reflexivity].
Qed.

Lemma Forall2_row_kept_refl demandeId rows : Forall2 (row_kept demandeId) rows rows.
Proof.
  induction rows; constructor; auto. split; [repeat split|reflexivity].
Qed.

Lemma write_statut_ids env demandeId ns rows :
  map Demande.id (write_statut env demandeId ns rows) = map Demande.id rows.
Proof.
  unfold write_statut. rewrite map_map. apply map_ext. intros d.
  destruct (String.eqb (Demande.id d) demandeId); reflexivity.
Qed.

Lemma write_statut_absent env demandeId ns s :
  demande_exists s demandeId = false ->
  write_statut env demandeId ns (demandes_carburant s) = demandes_carburant s.
Proof.
  unfold demande_exists, write_statut.
  induction (demandes_carburant s) as [|d l IH]; simpl; [reflexivity|].
  intros H. apply orb_false_elim in H. destruct H as [Hd Hl].
  rewrite Hd, (IH Hl). reflexivity.
Qed.

(** X1. A decision, whatever its outcome and whatever fails, rewrites nothing
    but the status and the modification date of the stored rows of the decided
    request: the rows of other requests are untouched, no row is added or
    removed, identifiers stay where they are; vehicles, attachments and the
    bucket are untouched; the tables of validation records and of log entries
    grow by at most one row each, at their end. *)
Theorem decide_frame env demandeId statut commentaire w :
  let w' := exec (handleValidation env demandeId statut commentaire) w in
  Forall2 (row_kept demandeId) (demandes_carburant (db w)) (demandes_carburant (db w')) /\
  map Demande.id (demandes_carburant (db w')) = map Demande.id (demandes_carburant (db w)) /\
  vehicules (db w') = vehicules (db w) /\
  justificatifs (db w') = justificatifs (db w) /\
  bucket (db w') = bucket (db w) /\
  (exists added, validations (db w') = (validations (db w) ++ added)%list /\
                 (length added <= 1)%nat) /\
  (exists added, logs (db w') = (logs (db w) ++ added)%list /\
                 (length added <= 1)%nat) /\
  user (ui w') = user (ui w) /\
  uploadedFiles (ui w') = uploadedFiles (ui w).
Proof.
  intros w'. subst w'. rewrite handleValidation_cases.
  assert (Hsame : forall c : Client,
    user c = user (ui w) -> uploadedFiles c = uploadedFiles (ui w) ->
    let w' := mkWorld (db w) c in
    Forall2 (row_kept demandeId) (demandes_carburant (db w)) (demandes_carburant (db w')) /\
    map Demande.id (demandes_carburant (db w')) = map Demande.id (demandes_carburant (db w)) /\
    vehicules (db w') = vehicules (db w) /\
    justificatifs (db w') = justificatifs (db w) /\
    bucket (db w') = bucket (db w) /\
    (exists added, validations (db w') = (validations (db w) ++ added)%list /\
                   (length added <= 1)%nat) /\
    (exists added, logs (db w') = (logs (db w) ++ added)%list /\
                   (length added <= 1)%nat) /\
    user (ui w') = user (ui w) /\
    uploadedFiles (ui w') = uploadedFiles (ui w)).
  { intros c Hu Hf. cbn. repeat split; try assumption.
    - apply Forall2_row_kept_refl.
    - exists []. rewrite app_nil_r. split; [reflexivity|cbn; lia].
    - exists []. rewrite app_nil_r. split; [reflexivity|cbn; lia]. }
  destruct (find _ _) as [demande|].
  2:{ destruct w as [s c]. apply (Hsame c); reflexivity. }
  destruct (next_statut _ _ _) as [[ns lv]|].
  2:{ apply Hsame; reflexivity. }
  cbv zeta. cbn [db ui].
  assert (Hc : forall s',
    user (client_after_decide env statut demandeId (db w) s' (ui w)) = user (ui w) /\
    uploadedFiles (client_after_decide env statut demandeId (db w) s' (ui w))
      = uploadedFiles (ui w)).
  { intros s'. unfold client_after_decide.
    destruct (_ || _ || _); [split; reflexivity|].
    destruct (unavailable env SelectDemandes); split; reflexivity. }
  destruct (Hc (store_after_decide env (user (ui w)) demandeId statut commentaire
                  ns lv (db w))) as [Hu Hf].
  rewrite Hu, Hf.
  unfold store_after_decide.
  destruct (unavailable env UpdateDemande).
  { repeat split.
    - apply Forall2_row_kept_refl.
    - exists []. rewrite app_nil_r. split; [reflexivity|cbn; lia].
    - exists []. rewrite app_nil_r. split; [reflexivity|cbn; lia]. }
  destruct (_ || _).
  { cbn. repeat split.
    - apply write_statut_kept.
    - apply write_statut_ids.
    - exists []. rewrite app_nil_r. split; [reflexivity|cbn; lia].
    - exists []. rewrite app_nil_r. split; [reflexivity|cbn; lia]. }
  destruct (unavailable env RpcLogAction); cbn; repeat split.
  - apply write_statut_kept.
  - apply write_statut_ids.
  - eexists. split; [reflexivity|cbn; lia].
  - exists []. rewrite app_nil_r. split; [reflexivity|cbn; lia].
  - apply write_statut_kept.
  - apply write_statut_ids.
  - eexists. split; [reflexivity|cbn; lia].
  - eexists. split; [reflexivity|cbn; lia].
Qed.

(** ** The order of the loaded list *)

Lemma insert_by_date_sorted d l :
  Sorted newer_or_same l -> Sorted newer_or_same (insert_by_date d l).
Proof.
  induction l as [|x r IH]; simpl; intros Hs.
  - repeat constructor.
  - destruct (Z.leb_spec (Demande.date_demande x) (Demande.date_demande d)).
    + constructor; [exact Hs|]. constructor. exact H.
    + inversion Hs as [|? ? Hr Hhd]; subst. constructor; [apply IH; exact Hr|].
      destruct r as [|y r']; simpl.
      * constructor. unfold newer_or_same. lia.
      * destruct (Z.leb_spec (Demande.date_demande y) (Demande.date_demande d)).
        -- constructor. unfold newer_or_same. lia.
        -- constructor. inversion Hhd; subst. assumption.
Qed.

Lemma order_by_date_desc_sorted l : Sorted newer_or_same (order_by_date_desc l).
Proof.
  induction l as [|d r IH]; simpl; [constructor|].
  apply insert_by_date_sorted. exact IH.
Qed.

(** X3. After a fetch that the service answers, the loaded list runs from the
    newest request to the oldest: every request is at least as recent as all
    those after it. *)
Theorem fetchDemandes_newest_first env w :
  unavailable env SelectDemandes = false ->
  StronglySorted newer_or_same (demandes (ui (exec (fetchDemandes env) w))).
Proof.
  intros Hsel. rewrite fetchDemandes_cases, Hsel.
  cbn [ui demandes with_loading with_demandes]. unfold visible_demandes.
  apply Sorted_StronglySorted; [|apply order_by_date_desc_sorted].
  intros a b c. unfold newer_or_same. lia.
Qed.

(** ** The page's gate and the store's policies *)

(** X4. Whoever the page offers the decision buttons for a request passes the
    store's policies for the three writes of the decision: the update of the
    request, the insert of a validation record in the caller's own name and
    the insert of a log entry. The gate of the page lies inside the policies
    of the store. *)
Theorem gate_within_store_policies u demande :
  canValidate (Some u) demande = true ->
  policy_update_demande (Some u) = true /\
  (forall v, Validation.valide_par v = Some (User.id u) ->
             policy_insert_validation (Some u) v = true) /\
  policy_insert_log (Some u) = true.
Proof.
  intros Hc.
  assert (Hs : role_in_staff (User.role u) = true).
  { unfold canValidate in Hc. destruct (User.role u); try discriminate; reflexivity. }
  split; [exact Hs|]. split; [|reflexivity].
  intros v Hv. unfold policy_insert_validation, uid_is, caller_is_staff.
  rewrite Hv, String.eqb_refl, Hs. reflexivity.
Qed.

(** X5. An administrator or a driver is never let through by the page: for
    every loaded request, in whatever status, the buttons are hidden and a
    decision ends in "Action non autorisée" with the store untouched; for the
    administrator this is so although the store's policies would accept the
    update and the record. *)
Theorem admin_and_driver_never_decide env demandeId statut commentaire w u demande :
  user (ui w) = Some u ->
  User.role u = admin \/ User.role u = chauffeur ->
  find (fun d => String.eqb (Demande.id d) demandeId) (demandes (ui w)) = Some demande ->
  canValidate (Some u) demande = false /\
  exec (handleValidation env demandeId statut commentaire) w =
    mkWorld (db w) (push_toast (toast_error msg_non_autorisee) (ui w)) /\
  (User.role u = admin ->
   policy_update_demande (Some u) = true /\
   forall v, Validation.valide_par v = Some (User.id u) ->
             policy_insert_validation (Some u) v = true).
Proof.
  intros Hu Hrole Hfind.
  assert (Hn : next_statut (Some u) demande statut = None).
  { unfold next_statut, role_is. destruct Hrole as [-> | ->]; reflexivity. }
  split; [|split].
  - unfold canValidate. destruct Hrole as [-> | ->]; reflexivity.
  - rewrite handleValidation_cases, Hfind, Hu, Hn. reflexivity.
  - intros Ha. unfold policy_update_demande, policy_insert_validation, caller_is_staff, uid_is.
    rewrite Ha. split; [reflexivity|].
    intros v Hv. rewrite Hv, String.eqb_refl. reflexivity.
Qed.

(** ** A session that stays in step with the store *)

Lemma synced_ext w w' demandeId :
  demandes (ui w') = demandes (ui w) ->
  demandes_carburant (db w') = demandes_carburant (db w) ->
  synced w' demandeId = synced w demandeId.
Proof. unfold synced. intros -> ->. reflexivity. Qed.

Lemma visible_synced s c caller owner demandeId :
  NoDup (map Demande.id (demandes_carburant s)) ->
  demandes c = visible_demandes caller owner s ->
  synced (mkWorld s c) demandeId = true.
Proof.
  intros Hnd Hc. unfold synced. cbn [ui db]. rewrite Hc.
  destruct (find _ _) as [d|] eqn:Hf; [|reflexivity].
  unfold visible_demandes in Hf. apply find_order_in in Hf. destruct Hf as [Hin Hid].
  apply filter_In in Hin. destruct Hin as [Hin _].
  apply filter_In in Hin. destruct Hin as [Hin _].
  apply forallb_forall. intros r Hr.
  destruct (String.eqb (Demande.id r) demandeId) eqn:Hrid; [|reflexivity].
  cbn [negb orb].
  apply String.eqb_eq in Hrid, Hid.
  rewrite (nodup_key_eq Demande.id _ r d Hnd Hr Hin) by congruence.
  apply statut_eqb_refl.
Qed.

Lemma in_step_synced w : in_step w = true <-> forall id, synced w id = true.
Proof.
  unfold in_step. rewrite forallb_forall. split.
  - intros H id. destruct (find (fun d => String.eqb (Demande.id d) id) (demandes (ui w)))
      as [d|] eqn:Hf.
    + apply find_some in Hf. destruct Hf as [Hin Hid].
      apply String.eqb_eq in Hid. subst id. apply H. exact Hin.
    + unfold synced. rewrite Hf. reflexivity.
  - intros H d _. apply H.
Qed.

Lemma decide_stays_in_step env demandeId statut commentaire w :
  NoDup (map Demande.id (demandes_carburant (db w))) ->
  (forall id, synced w id = true) ->
  unavailable env InsertValidation = false ->
  unavailable env SelectDemandes = false ->
  let w' := exec (handleValidation env demandeId statut commentaire) w in
  NoDup (map Demande.id (demandes_carburant (db w'))) /\
  forall id, synced w' id = true.
Proof.
  intros Hnd Hsync Hins Hsel w'.
  assert (Hids : map Demande.id (demandes_carburant (db w')) =
                 map Demande.id (demandes_carburant (db w))).
  { subst w'. rewrite handleValidation_cases.
    destruct (find _ _) as [demande|]; [|reflexivity].
    destruct (next_statut _ _ _) as [[ns lv]|]; [|reflexivity].
    cbv zeta. cbn [db]. rewrite demandes_store_after_decide.
    destruct (unavailable env UpdateDemande); [reflexivity|apply write_statut_ids]. }
  split; [rewrite Hids; exact Hnd|].
  intros id. subst w'. rewrite handleValidation_cases.
  destruct (find _ _) as [demande|]; [|apply Hsync].
  destruct (next_statut _ _ _) as [[ns lv]|] eqn:Hn.
  2:{ rewrite <- (Hsync id). apply synced_ext; reflexivity. }
  cbv zeta.
  destruct (unavailable env UpdateDemande) eqn:Hup.
  { rewrite <- (Hsync id). apply synced_ext; cbn [db ui].
    - unfold client_after_decide. rewrite Hup. reflexivity.
    - rewrite demandes_store_after_decide, Hup. reflexivity. }
  destruct (demande_exists (db w) demandeId) eqn:He.
  - set (s' := store_after_decide _ _ _ _ _ _ _ _).
    assert (Hd : demandes_carburant s' =
                 write_statut env demandeId ns (demandes_carburant (db w))).
    { subst s'. rewrite demandes_store_after_decide, Hup. reflexivity. }
    apply (visible_synced s' _ (user (ui w)) None id).
    + rewrite Hd, write_statut_ids. exact Hnd.
    + unfold client_after_decide. rewrite Hup, Hins, He, Hsel. reflexivity.
  - rewrite <- (Hsync id). apply synced_ext; cbn [db ui].
    + unfold client_after_decide. rewrite Hup, Hins, He. reflexivity.
    + rewrite demandes_store_after_decide, Hup. apply write_statut_absent. exact He.
Qed.

(** X2. With [id] the primary key of the stored requests, a session that
    starts with its list in step with the store stays in step through any
    number of decisions, whatever their outcome, as long as the service
    answers the insert of the record and the refresh of the list at each of
    them; and along such a session every stored request keeps its identity
    while its status only moves forward through the sequence or into
    rejection. *)
Theorem session_stays_in_step_and_moves_forward cs : forall w,
  NoDup (map Demande.id (demandes_carburant (db w))) ->
  in_step w = true ->
  record_and_refresh_answered cs = true ->
  let w' := session_run w cs in
  NoDup (map Demande.id (demandes_carburant (db w'))) /\
  in_step w' = true /\
  Forall2 row_forward (demandes_carburant (db w)) (demandes_carburant (db w')).
Proof.
  induction cs as [|c rest IH]; intros w Hnd Hstep Hans; cbn [session_run fold_left].
  - repeat split; try assumption. apply Forall2_row_forward_refl.
  - cbn in Hans. apply andb_prop in Hans. destruct Hans as [Hc Hrest].
    apply andb_prop in Hc. destruct Hc as [Hins Hsel].
    apply negb_true_iff in Hins, Hsel.
    pose proof (proj1 (in_step_synced w) Hstep) as Hsync.
    destruct (decide_stays_in_step (c_env c) (c_id c) (c_statut c) (c_commentaire c) w
                Hnd Hsync Hins Hsel) as [Hnd1 Hsync1].
    pose proof (proj2 (in_step_synced _) Hsync1) as Hstep1.
    destruct (IH (click w c) Hnd1 Hstep1 Hrest) as (Hnd2 & Hstep2 & Hfw).
    split; [exact Hnd2|]. split; [exact Hstep2|].
    eapply Forall2_row_forward_trans; [|exact Hfw].
    pose proof (decide_step_forward (db w)
                  (mkDecision (ui w) (c_env c) (c_id c) (c_statut c) (c_commentaire c)))
      as Hone.
    unfold decide_world in Hone. cbn [session d_env d_id d_statut d_commentaire] in Hone.
    destruct w as [s cl]. apply Hone. apply Hsync.
Qed.

(** X16. After a decision that reported success and a refresh that the
    service answered, the list shows the decided request with the status the
    table gives, the buttons for it are hidden from the caller, the modal is
    closed and the loading flag is down. *)
Theorem decided_request_shown_with_new_status env demandeId statut commentaire w :
  let w' := exec (handleValidation env demandeId statut commentaire) w in
  succeeded w w' = true ->
  unavailable env SelectDemandes = false ->
  exists demande next lvl shown,
    find (fun d => String.eqb (Demande.id d) demandeId) (demandes (ui w)) = Some demande /\
    table_decide (Demande.statut demande) (option_map User.role (user (ui w))) statut
      = Some (next, lvl) /\
    find (fun d => String.eqb (Demande.id d) demandeId) (demandes (ui w')) = Some shown /\
    Demande.statut shown = next /\
    canValidate (user (ui w')) shown = false /\
    showModal (ui w') = false /\ loading (ui w') = false.
Proof.
  intros w'. subst w'. rewrite handleValidation_cases. unfold succeeded.
  destruct (find _ (demandes (ui w))) as [demande|].
  2:{ rewrite new_toasts_same. discriminate. }
  destruct (next_statut _ _ _) as [[ns lv]|] eqn:Hn.
  2:{ rewrite new_toasts_push. discriminate. }
  rewrite new_toasts_decide. cbn [db ui].
  destruct (next_statut_staff _ _ _ _ Hn) as (x & Hu & Hstaff).
  unfold client_after_decide.
  destruct (unavailable env UpdateDemande || unavailable env InsertValidation
            || negb (demande_exists (db w) demandeId)) eqn:Hfail; [discriminate|].
  intros _ Hsel. rewrite Hsel.
  cbn [demandes with_showModal with_loading with_demandes user push_toast showModal loading].
  apply orb_false_elim in Hfail. destruct Hfail as [Hfail He].
  apply orb_false_elim in Hfail. destruct Hfail as [Hup _].
  apply negb_false_iff in He.
  rewrite Hu, (visible_staff _ _ Hstaff), demandes_store_after_decide, Hup.
  destruct (find_after_write env demandeId ns (db w) He) as (d' & Hd' & Hst).
  exists demande, ns, lv, d'.
  split; [reflexivity|]. split; [rewrite <- next_statut_table, <- Hu; exact Hn|].
  split; [exact Hd'|]. split; [exact Hst|]. split; [|split; reflexivity].
  destruct (canValidate (Some x) d') eqn:Hc; [|reflexivity].
  apply (canValidate_next_statut _ _ statut) in Hc.
  rewrite <- Hu in Hc.
  rewrite (next_statut_not_twice _ _ _ _ _ d' statut Hn Hst) in Hc. congruence.
Qed.

(** ** A refresh that fails *)

(** X17. A fetch never writes to the store and always ends with the loading
    flag down. When the service answers, it shows no toast and replaces the
    list; when it does not, the list stays exactly as it was loaded before,
    however old, and the one toast shown is the loading error. *)
Theorem fetchDemandes_failure_keeps_old_list env w :
  let w' := exec (fetchDemandes env) w in
  db w' = db w /\ loading (ui w') = false /\ user (ui w') = user (ui w) /\
  if unavailable env SelectDemandes
  then demandes (ui w') = demandes (ui w) /\
       new_toasts w w' = [toast_error msg_erreur_chargement]
  else new_toasts w w' = [] /\
       forall d, In d (demandes (ui w')) ->
                 In d (demandes_carburant (db w)) /\
                 policy_select_demande (user (ui w)) d = true.
Proof.
  intros w'. subst w'. rewrite fetchDemandes_cases. cbn [db ui].
  split; [reflexivity|]. split; [reflexivity|].
  destruct (unavailable env SelectDemandes).
  - split; [reflexivity|]. split; [reflexivity|]. apply new_toasts_app. reflexivity.
  - split; [reflexivity|]. split.
    + apply new_toasts_app. cbn. rewrite app_nil_r. reflexivity.
    + intros d Hd.
      cbn [demandes with_loading with_demandes] in Hd. unfold visible_demandes in Hd.
      apply (Permutation_in _ (order_by_date_desc_perm _)) in Hd.
      apply filter_In in Hd. destruct Hd as [Hd _]. apply filter_In in Hd. exact Hd.
Qed.

(** ** Choosing the files to attach *)

Lemma check_file_run file w :
  check_file file w =
  if valid_file file then (w, inr true)
  else (mkWorld (db w)
          (push_toast
             (toast_error
                (File.name file ++
                 if isValidType file then ": Fichier trop volumineux (max 5MB)"
                 else ": Type de fichier non supporté"))
             (ui w)),
        inr false).
Proof.
  unfold check_file, valid_file, bind, toast, modify_ui, ret.
  destruct (isValidType file); cbn [negb andb]; [|reflexivity].
  destruct (isValidSize file); reflexivity.
Qed.

Lemma filter_files_run files : forall w,
  exists ts,
    filter_files files w =
      (mkWorld (db w)
         (mkClient (user (ui w)) (demandes (ui w)) (uploadedFiles (ui w))
            (loading (ui w)) (showModal (ui w)) (location (ui w))
            (toasts (ui w) ++ ts)),
       inr (filter valid_file files)) /\
    length ts = (length files - length (filter valid_file files))%nat /\
    Forall (fun t => is_success t = false) ts /\
    (forall file, In file files -> valid_file file = false ->
       In (toast_error
             (File.name file ++
              if isValidType file then ": Fichier trop volumineux (max 5MB)"
              else ": Type de fichier non supporté")) ts).
Proof.
  induction files as [|file rest IH]; intros w.
  - exists []. cbn. rewrite app_nil_r. destruct w as [s []].
    repeat split; try constructor. intros f [].
  - cbn [filter_files]. unfold bind at 1. rewrite check_file_run.
    destruct (valid_file file) eqn:Hv.
    + destruct (IH w) as (ts & Hrun & Hlen & Hall & Hin).
      exists ts. unfold bind. rewrite Hrun. cbn [filter]. rewrite Hv.
      split; [reflexivity|]. split; [cbn [length]; exact Hlen|]. split; [exact Hall|].
      intros f [<-|Hf] Hbad; [congruence|]. apply Hin; assumption.
    + set (t := toast_error _).
      destruct (IH (mkWorld (db w) (push_toast t (ui w)))) as (ts & Hrun & Hlen & Hall & Hin).
      exists (t :: ts). unfold bind. rewrite Hrun. cbn [filter db ui]. rewrite Hv.
      split; [|split; [|split]].
      * unfold ret. cbn [push_toast user demandes uploadedFiles loading showModal
                         location toasts].
        rewrite <- app_assoc. reflexivity.
      * cbn [length]. rewrite Hlen.
        pose proof (filter_length_le valid_file rest). lia.
      * constructor; [reflexivity|exact Hall].
      * intros f [<-|Hf] Hbad; [left; reflexivity|]. right. apply Hin; assumption.
Qed.

Lemma handleFileUpload_files files w :
  uploadedFiles (ui (exec (handleFileUpload files) w)) =
    (uploadedFiles (ui w) ++ filter valid_file files)%list /\
  db (exec (handleFileUpload files) w) = db w.
Proof.
  unfold exec, handleFileUpload, bind.
  destruct (filter_files_run files w) as (ts & -> & _).
  split; reflexivity.
Qed.

(** X6. Choosing files adds to the selection exactly those of the chosen files
    that are JPEG, PNG or PDF and at most 5 MB, in the order chosen, after the
    files already selected. Each other file gets one error toast with its
    name, about its type when the type is wrong (whatever its size) and about
    its size otherwise. The store is not touched. *)
Theorem handleFileUpload_keeps_valid_files files w :
  let w' := exec (handleFileUpload files) w in
  uploadedFiles (ui w') = (uploadedFiles (ui w) ++ filter valid_file files)%list /\
  db w' = db w /\
  length (new_toasts w w') = (length files - length (filter valid_file files))%nat /\
  succeeded w w' = false /\
  (forall file, In file files -> isValidType file = false ->
     In (toast_error (File.name file ++ ": Type de fichier non supporté"))
        (new_toasts w w')) /\
  (forall file, In file files -> isValidType file = true -> isValidSize file = false ->
     In (toast_error (File.name file ++ ": Fichier trop volumineux (max 5MB)"))
        (new_toasts w w')).
Proof.
  intros w'. subst w'. unfold exec, handleFileUpload, bind.
  destruct (filter_files_run files w) as (ts & -> & Hlen & Hall & Hin).
  cbn [fst setUploadedFiles modify_ui db ui with_uploadedFiles uploadedFiles].
  rewrite (new_toasts_app w _ ts) by reflexivity. unfold succeeded.
  rewrite (new_toasts_app w _ ts) by reflexivity.
  split; [reflexivity|]. split; [reflexivity|]. split; [exact Hlen|]. split; [|split].
  - clear -Hall. induction Hall as [|t l Ht _ IH]; [reflexivity|]. cbn. rewrite Ht. exact IH.
  - intros f Hf Ht. specialize (Hin f Hf). unfold valid_file in Hin. rewrite Ht in Hin.
    apply Hin. reflexivity.
  - intros f Hf Ht Hs. specialize (Hin f Hf). unfold valid_file in Hin.
    rewrite Ht, Hs in Hin. apply Hin. reflexivity.
Qed.

Lemma filter_index_past {A} index (l : list A) : forall from,
  (index < from)%nat ->
  filter_index (fun i => negb (Nat.eqb i index)) from l = l.
Proof.
  induction l as [|x r IH]; intros from Hlt; cbn; [reflexivity|].
  destruct (Nat.eqb_spec from index); [lia|]. cbn. rewrite IH by lia. reflexivity.
Qed.

Lemma filter_index_spec {A} index (l : list A) : forall from,
  (from <= index)%nat ->
  filter_index (fun i => negb (Nat.eqb i index)) from l =
  (firstn (index - from) l ++ skipn (S (index - from)) l)%list.
Proof.
  induction l as [|x r IH]; intros from Hle.
  - cbn. rewrite firstn_nil. reflexivity.
  - cbn [filter_index]. destruct (Nat.eqb_spec from index) as [->|Hne].
    + rewrite Nat.sub_diag. cbn. apply filter_index_past. lia.
    + cbn [negb]. replace (index - from)%nat with (S (index - S from)) by lia.
      cbn [firstn skipn app]. rewrite IH by lia. reflexivity.
Qed.

(** X7. Removing the file at a position of the selection leaves the files
    before it and the files after it, in their order; a position past the end
    removes nothing. Store and toasts are not touched. *)
Theorem removeFile_removes_one_position index w :
  let w' := exec (removeFile index) w in
  uploadedFiles (ui w') =
    (firstn index (uploadedFiles (ui w)) ++ skipn (S index) (uploadedFiles (ui w)))%list /\
  ((length (uploadedFiles (ui w)) <= index)%nat ->
   uploadedFiles (ui w') = uploadedFiles (ui w)) /\
  ((index < length (uploadedFiles (ui w)))%nat ->
   S (length (uploadedFiles (ui w'))) = length (uploadedFiles (ui w))) /\
  db w' = db w /\ toasts (ui w') = toasts (ui w).
Proof.
  intros w'. subst w'.
  unfold exec, removeFile, setUploadedFiles, modify_ui.
  cbn [fst db ui with_uploadedFiles uploadedFiles toasts].
  rewrite filter_index_spec by lia. rewrite Nat.sub_0_r.
  split; [reflexivity|]. split; [|split; [|split; reflexivity]].
  - intros Hle. rewrite firstn_all2 by exact Hle.
    rewrite skipn_all2 by lia. apply app_nil_r.
  - intros Hlt. rewrite length_app, length_firstn, length_skipn. lia.
Qed.

Lemma filter_index_Forall {A} (P : A -> Prop) p (l : list A) : forall from,
  Forall P l -> Forall P (filter_index p from l).
Proof.
  induction l as [|x r IH]; intros from H; cbn; [constructor|].
  inversion H; subst. destruct (p from); [constructor|]; auto.
Qed.

Lemma file_action_valid a w :
  Forall (fun f => valid_file f = true) (uploadedFiles (ui w)) ->
  Forall (fun f => valid_file f = true) (uploadedFiles (ui (exec (file_action a) w))) /\
  db (exec (file_action a) w) = db w.
Proof.
  intros Hv. destruct a as [files|index]; cbn [file_action].
  - destruct (handleFileUpload_files files w) as (-> & ->).
    split; [|reflexivity]. apply Forall_app. split; [exact Hv|].
    apply Forall_forall. intros f Hf. apply filter_In in Hf. apply Hf.
  - unfold exec, removeFile, setUploadedFiles, modify_ui.
    cbn [fst db ui with_uploadedFiles uploadedFiles].
    split; [|reflexivity]. apply filter_index_Forall. exact Hv.
Qed.

Lemma file_actions_valid l : forall w,
  Forall (fun f => valid_file f = true) (uploadedFiles (ui w)) ->
  Forall (fun f => valid_file f = true) (uploadedFiles (ui (file_actions l w))) /\
  db (file_actions l w) = db w.
Proof.
  induction l as [|a rest IH]; intros w Hv; cbn [file_actions].
  - split; [exact Hv|reflexivity].
  - destruct (file_action_valid a w Hv) as [Hv1 Hdb].
    destruct (IH _ Hv1) as [Hv2 Hdb2]. split; [exact Hv2|congruence].
Qed.

(** ** The extension of a file name *)

Lemma split_dot_cons s : exists h t, split_dot s = h :: t.
Proof.
  destruct s as [|a r]; cbn; [eauto|].
  destruct (Ascii.eqb a "."%char); [eauto|].
  destruct (split_dot r); eauto.
Qed.

Lemma concat_dot_cons a h t :
  String.concat "." (String a h :: t) = String a (String.concat "." (h :: t)).
Proof. destruct t; reflexivity. Qed.

Lemma split_dot_dotless name :
  Forall (fun piece => contains_dot piece = false) (split_dot name).
Proof.
  induction name as [|a r IH]; cbn [split_dot].
  - repeat constructor.
  - destruct (Ascii.eqb_spec a "."%char) as [->|Hne].
    + constructor; [reflexivity|exact IH].
    + destruct (split_dot r) as [|h t]; [repeat constructor; cbn|].
      * destruct (Ascii.eqb_spec a "."%char); [contradiction|reflexivity].
      * inversion IH; subst. constructor; [|assumption].
        cbn. destruct (Ascii.eqb_spec a "."%char); [contradiction|assumption].
Qed.

(** X8. Splitting a file name at its dots loses nothing: the pieces, put back
    together with dots between them, give the name again; there is always at
    least one piece and no piece holds a dot. *)
Theorem split_dot_round_trip name :
  String.concat "." (split_dot name) = name /\
  split_dot name <> [] /\
  Forall (fun piece => contains_dot piece = false) (split_dot name).
Proof.
  induction name as [|a r (IHc & IHn & IHf)].
  - cbn. repeat split; [discriminate|repeat constructor].
  - cbn [split_dot]. destruct (Ascii.eqb_spec a "."%char) as [->|Hne].
    + split; [|split; [discriminate|constructor; [reflexivity|exact IHf]]].
      destruct (split_dot_cons r) as (h & t & Hs). rewrite Hs in *.
      cbn [String.concat]. destruct t; cbn [append]; rewrite <- IHc; reflexivity.
    + destruct (split_dot r) as [|h t]; [contradiction|].
      split; [|split; [discriminate|]].
      * rewrite concat_dot_cons, IHc. reflexivity.
      * inversion IHf; subst. constructor; [|assumption].
        cbn. destruct (Ascii.eqb_spec a "."%char); [contradiction|assumption].
Qed.

Lemma split_dot_no_dot s : contains_dot s = false -> split_dot s = [s].
Proof.
  induction s as [|a r IH]; cbn; [reflexivity|].
  intros H. apply orb_false_elim in H. destruct H as [Ha Hr].
  rewrite Ha, (IH Hr). reflexivity.
Qed.

Lemma split_dot_app base s :
  split_dot (base ++ String "."%char s) = (split_dot base ++ split_dot s)%list.
Proof.
  induction base as [|a r IH]; cbn [append split_dot].
  - reflexivity.
  - rewrite IH. destruct (Ascii.eqb a "."%char); [reflexivity|].
    destruct (split_dot_cons r) as (h & t & ->). reflexivity.
Qed.

Lemma last_app_cons {A} (l : list A) x r d :
  last (l ++ x :: r)%list d = last (x :: r) d.
Proof.
  induction l as [|y l IH]; [reflexivity|].
  cbn [app]. rewrite <- IH. destruct (l ++ x :: r)%list eqn:E; [|reflexivity].
  destruct l; discriminate.
Qed.

Lemma last_split_dot_append base s :
  last (split_dot (base ++ "." ++ s)) "" = last (split_dot s) "".
Proof.
  change (base ++ "." ++ s) with (base ++ String "."%char s).
  rewrite split_dot_app. destruct (split_dot_cons s) as (h & t & ->).
  apply last_app_cons.
Qed.

(** X9. The extension [uploadFiles] takes from a file name is what follows
    its last dot, and it holds no dot itself; a name without any dot is its
    own extension, so that a file called README is stored under a name ending
    in ".README". *)
Theorem file_ext_is_last_piece name :
  contains_dot (file_ext name) = false /\
  (contains_dot name = false -> file_ext name = name) /\
  (forall base ext, name = base ++ "." ++ ext -> contains_dot ext = false ->
                    file_ext name = ext).
Proof.
  unfold file_ext. split; [|split].
  - pose proof (split_dot_dotless name) as Hf.
    destruct (split_dot_cons name) as (h & t & Hs). rewrite Hs in *.
    assert (Hin : In (last (h :: t) "") (h :: t)).
    { clear. revert h. induction t as [|x t IH]; intros h; [left; reflexivity|].
      right. apply (IH x). }
    apply (proj1 (Forall_forall _ _) Hf _ Hin).
  - intros H. rewrite (split_dot_no_dot _ H). reflexivity.
  - intros base ext -> H. rewrite last_split_dot_append, (split_dot_no_dot _ H).
    reflexivity.
Qed.

(** ** Uploading the attachments *)

Lemma existsb_eqb_In x l : existsb (String.eqb x) l = true <-> In x l.
Proof.
  rewrite existsb_exists. split.
  - intros (y & Hin & Heq). apply String.eqb_eq in Heq. subst. exact Hin.
  - intros Hin. exists x. split; [exact Hin|apply String.eqb_refl].
Qed.

Lemma upload_one_detail env demandeId n file w :
  exists w' r,
    upload_one env demandeId n file w = (w', inr r) /\
    only_files_differ w w' /\
    justificatifs (db w') = justificatifs (db w) /\
    ((r = inr (justificatif_of env demandeId n file) /\
      bucket (db w') = (bucket (db w) ++ [object_name env demandeId n file])%list) \/
     ((exists e, r = inl e) /\ bucket (db w') = bucket (db w))) /\
    (In (object_name env demandeId n file) (bucket (db w)) -> exists e, r = inl e).
Proof.
  unfold upload_one, bind, upload_object, ret.
  fold (object_name env demandeId n file).
  destruct (unavailable env (UploadObject n)).
  { eexists _, _. split; [reflexivity|]. split; [apply only_files_differ_refl|].
    split; [reflexivity|]. split; [right; eauto|eauto]. }
  destruct (existsb _ _) eqn:Hex.
  { eexists _, _. split; [reflexivity|]. split; [apply only_files_differ_refl|].
    split; [reflexivity|]. split; [right; eauto|eauto]. }
  eexists _, _. split; [reflexivity|]. split; [repeat split|].
  split; [reflexivity|]. split; [left; split; reflexivity|].
  intros Hin. apply existsb_eqb_In in Hin. congruence.
Qed.

Lemma upload_from_detail env demandeId files : forall n w,
  exists w' rs names,
    upload_from env demandeId n files w = (w', inr rs) /\
    only_files_differ w w' /\
    justificatifs (db w') = justificatifs (db w) /\
    bucket (db w') = (bucket (db w) ++ names)%list /\
    (length names <= length files)%nat /\
    ((forall e, ~ In (inl e) rs) -> length names = length files) /\
    settles env demandeId n files rs /\
    (forall k file, nth_error files k = Some file ->
       In (object_name env demandeId (n + k) file) (bucket (db w)) ->
       exists e, In (inl e) rs).
Proof.
  induction files as [|file rest IH]; intros n w.
  - exists w, [], []. cbn. rewrite app_nil_r.
    split; [reflexivity|]. split; [apply only_files_differ_refl|].
    split; [reflexivity|]. split; [reflexivity|]. split; [apply le_n|].
    split; [reflexivity|]. split; [exact I|].
    intros [|k'] f Hk; discriminate.
  - cbn [upload_from]. unfold bind.
    destruct (upload_one_detail env demandeId n file w)
      as (w1 & r & -> & Hd1 & Hj1 & Hcase & Hdup).
    destruct (IH (S n) w1) as (w2 & rs & names & -> & Hd2 & Hj2 & Hb2 & Hlen & Hall & Hset & Hpre).
    unfold ret.
    destruct Hcase as [[-> Hb1]|[[e ->] Hb1]].
    + exists w2, (inr (justificatif_of env demandeId n file) :: rs),
        (object_name env demandeId n file :: names).
      split; [reflexivity|]. split; [eapply only_files_differ_trans; eauto|].
      split; [congruence|]. split; [rewrite Hb2, Hb1, <- app_assoc; reflexivity|].
      split; [cbn; lia|]. split.
      { intros Hno. cbn. f_equal. apply Hall. intros e He. apply (Hno e). right. exact He. }
      split; [split; [left; reflexivity|exact Hset]|].
      intros [|k] f Hk Hin.
      * cbn in Hk. injection Hk as <-. rewrite Nat.add_0_r in Hin.
        destruct (Hdup Hin) as [e He]. discriminate He.
      * cbn in Hk. destruct (Hpre k f Hk) as [e He].
        { rewrite Hb1. apply in_or_app. left.
          rewrite Nat.add_succ_comm. exact Hin. }
        exists e. right. exact He.
    + exists w2, (inl e :: rs), names.
      split; [reflexivity|]. split; [eapply only_files_differ_trans; eauto|].
      split; [congruence|]. split; [rewrite Hb2, Hb1; reflexivity|].
      split; [cbn; lia|]. split.
      { intros Hno. exfalso. apply (Hno e). left. reflexivity. }
      split; [split; [right; eauto|exact Hset]|].
      intros _ _ _ _. exists e. left. reflexivity.
Qed.

Lemma promise_all_rows env demandeId files : forall n rs,
  settles env demandeId n files rs ->
  (forall e, ~ In (inl e) rs) ->
  forall w, promise_all rs w = (w, inr (justificatifs_from env demandeId n files)).
Proof.
  induction files as [|file rest IH]; intros n [|r rs] Hs Hno w; cbn in Hs; try contradiction.
  - reflexivity.
  - destruct Hs as [[->|[e ->]] Hs].
    + cbn. unfold bind. rewrite (IH (S n) rs Hs); [reflexivity|].
      intros e He. apply (Hno e). right. exact He.
    + exfalso. apply (Hno e). left. reflexivity.
Qed.

Lemma promise_all_throws rs w :
  (exists e, In (inl e) rs) -> exists e, promise_all rs w = (w, inl e).
Proof.
  intros H. destruct (promise_all_run rs w) as [(rows & _ & Hno)|He]; [|exact He].
  destruct H as [e He]. destruct (Hno e He).
Qed.

(** Two files of one run that are given the same object name: one of the two
    uploads comes back with an error. *)
Lemma upload_from_collision env demandeId files : forall n w i j fi fj,
  (i < j)%nat ->
  nth_error files i = Some fi ->
  nth_error files j = Some fj ->
  object_name env demandeId (n + i) fi = object_name env demandeId (n + j) fj ->
  exists w' rs e, upload_from env demandeId n files w = (w', inr rs) /\ In (inl e) rs.
Proof.
  induction files as [|file rest IH]; intros n w i j fi fj Hlt Hi Hj Hname.
  - destruct i; discriminate.
  - destruct j as [|j]; [lia|]. cbn in Hj.
    cbn [upload_from]. unfold bind.
    destruct (upload_one_detail env demandeId n file w)
      as (w1 & r & -> & _ & _ & Hcase & _).
    destruct i as [|i]; cbn in Hi.
    + injection Hi as ->. rewrite Nat.add_0_r in Hname.
      destruct (upload_from_detail env demandeId rest (S n) w1)
        as (w2 & rs & names & -> & _ & _ & _ & _ & _ & _ & Hpre).
      unfold ret. destruct Hcase as [[-> Hb1]|[[e ->] _]].
      * destruct (Hpre j fj Hj) as [e He].
        { rewrite Hb1. apply in_or_app. right. left.
          rewrite Hname. f_equal. lia. }
        eexists _, _, e. split; [reflexivity|]. right. exact He.
      * eexists _, _, e. split; [reflexivity|]. left. reflexivity.
    + destruct (IH (S n) w1 i j fi fj) as (w2 & rs & e & -> & He); try assumption.
      * lia.
      * replace (S n + i)%nat with (n + S i)%nat by lia.
        replace (S n + j)%nat with (n + S j)%nat by lia. exact Hname.
      * unfold ret. eexists _, _, e. split; [reflexivity|]. right. exact He.
Qed.

(** The two ways [uploadFiles] ends. *)
Lemma uploadFiles_detail env demandeId w :
  exists w' r names,
    uploadFiles env demandeId w = (w', r) /\
    only_files_differ w w' /\
    bucket (db w') = (bucket (db w) ++ names)%list /\
    (length names <= length (uploadedFiles (ui w)))%nat /\
    match r with
    | inl _ => justificatifs (db w') = justificatifs (db w)
    | inr _ =>
        justificatifs (db w') =
          (justificatifs (db w) ++
           justificatifs_from env demandeId 0 (uploadedFiles (ui w)))%list /\
        length names = length (uploadedFiles (ui w))
    end /\
    ((exists i j fi fj,
        (i < j)%nat /\
        nth_error (uploadedFiles (ui w)) i = Some fi /\
        nth_error (uploadedFiles (ui w)) j = Some fj /\
        object_name env demandeId i fi = object_name env demandeId j fj) ->
     exists e, r = inl e).
Proof.
  unfold uploadFiles, bind, get_ui.
  destruct (upload_from_detail env demandeId (uploadedFiles (ui w)) 0%nat w)
    as (w1 & rs & names & Hrun & Hd & Hj & Hb & Hlen & Hall & Hset & _).
  rewrite Hrun.
  assert (Hcol : (exists i j fi fj,
        (i < j)%nat /\
        nth_error (uploadedFiles (ui w)) i = Some fi /\
        nth_error (uploadedFiles (ui w)) j = Some fj /\
        object_name env demandeId i fi = object_name env demandeId j fj) ->
     exists e, In (inl e) rs).
  { intros (i & j & fi & fj & Hlt & Hi & Hjj & Hname).
    destruct (upload_from_collision env demandeId (uploadedFiles (ui w)) 0%nat w
                i j fi fj Hlt Hi Hjj Hname) as (w2 & rs2 & e & Hrun2 & He).
    rewrite Hrun in Hrun2. injection Hrun2 as _ <-. eauto. }
  destruct (promise_all_run rs w1) as [(rows & Hp & Hno)|(e & Hp)].
  - rewrite (promise_all_rows env demandeId _ 0%nat rs Hset Hno w1).
    unfold insert_justificatifs, throw_if.
    destruct (unavailable env InsertJustificatifs).
    { exists w1, (inl Unavailable), names. split; [reflexivity|].
      split; [exact Hd|]. split; [exact Hb|]. split; [exact Hlen|].
      split; [exact Hj|eauto]. }
    destruct (negb (forallb (fun j => fits_integer _) _)).
    { exists w1, (inl NumericOutOfRange), names. split; [reflexivity|].
      split; [exact Hd|]. split; [exact Hb|]. split; [exact Hlen|].
      split; [exact Hj|eauto]. }
    destruct (negb _).
    { exists w1, (inl PolicyViolation), names. split; [reflexivity|].
      split; [exact Hd|]. split; [exact Hb|]. split; [exact Hlen|].
      split; [exact Hj|eauto]. }
    eexists _, (inr tt), names. split; [reflexivity|].
    destruct Hd as (Hu & Hv & Hdm & Hva & Hl).
    split; [repeat split; assumption|]. split; [exact Hb|]. split; [exact Hlen|].
    split.
    + cbn. rewrite Hj. split; [reflexivity|apply Hall; exact Hno].
    + intros H. destruct (Hcol H) as [e He]. destruct (Hno e He).
  - rewrite Hp. exists w1, (inl e), names. split; [reflexivity|].
    split; [exact Hd|]. split; [exact Hb|]. split; [exact Hlen|].
    split; [exact Hj|eauto].
Qed.

Lemma justificatifs_from_fields env demandeId files : forall n,
  let rows := justificatifs_from env demandeId n files in
  map Justificatif.nom_fichier rows = map File.name files /\
  map Justificatif.type_fichier rows = map File.type files /\
  map Justificatif.taille_fichier rows = map File.size files /\
  Forall (fun j => Justificatif.id_demande j = demandeId) rows.
Proof.
  induction files as [|file rest IH]; intros n; cbn.
  - repeat split. constructor.
  - destruct (IH (S n)) as (Hn & Ht & Hs & Hd). cbn in *.
    rewrite Hn, Ht, Hs. repeat split. constructor; [reflexivity|exact Hd].
Qed.

(** X10. [uploadFiles] writes the attachment rows of a request all together
    or not at all. When it returns, there is exactly one new row per selected
    file, in the order of the selection, tied to the request and carrying the
    file's name, type and size, and one new object per file in the bucket.
    When it throws, the table of attachments is as before, though the objects
    already uploaded stay in the bucket. Nothing else in the store and nothing
    in the component state changes. *)
Theorem uploadFiles_rows_all_or_none env demandeId w :
  let files := uploadedFiles (ui w) in
  let w' := fst (uploadFiles env demandeId w) in
  only_files_differ w w' /\
  (exists names, bucket (db w') = (bucket (db w) ++ names)%list /\
                 (length names <= length files)%nat) /\
  match snd (uploadFiles env demandeId w) with
  | inl _ => justificatifs (db w') = justificatifs (db w)
  | inr _ =>
      length (bucket (db w')) = (length (bucket (db w)) + length files)%nat /\
      exists rows,
        justificatifs (db w') = (justificatifs (db w) ++ rows)%list /\
        map Justificatif.nom_fichier rows = map File.name files /\
        map Justificatif.type_fichier rows = map File.type files /\
        map Justificatif.taille_fichier rows = map File.size files /\
        Forall (fun j => Justificatif.id_demande j = demandeId) rows
  end.
Proof.
  intros files w'. subst files w'.
  destruct (uploadFiles_detail env demandeId w)
    as (w1 & r & names & -> & Hd & Hb & Hlen & Hr & _).
  cbn [fst snd]. split; [exact Hd|]. split; [eauto|].
  destruct r as [e|[]]; [exact Hr|].
  destruct Hr as [Hj Hn]. split.
  - rewrite Hb, length_app, Hn. reflexivity.
  - eexists. split; [exact Hj|]. apply justificatifs_from_fields.
Qed.

(** X11. Two selected files whose names end in the same extension and whose
    uploads read the same value of the clock are given the same object name;
    then [uploadFiles] never returns: it throws, and no attachment row is
    written, even when every call to the service is answered. *)
Theorem same_name_uploads_collide env demandeId w i j fi fj :
  (i < j)%nat ->
  nth_error (uploadedFiles (ui w)) i = Some fi ->
  nth_error (uploadedFiles (ui w)) j = Some fj ->
  file_ext (File.name fi) = file_ext (File.name fj) ->
  date_now env i = date_now env j ->
  (exists e, snd (uploadFiles env demandeId w) = inl e) /\
  justificatifs (db (fst (uploadFiles env demandeId w))) = justificatifs (db w).
Proof.
  intros Hlt Hi Hj Hext Hnow.
  destruct (uploadFiles_detail env demandeId w)
    as (w1 & r & names & -> & _ & _ & _ & Hr & Hcol).
  cbn [fst snd].
  destruct Hcol as [e ->].
  { exists i, j, fi, fj. repeat split; try assumption.
    unfold object_name. rewrite Hext, Hnow. reflexivity. }
  split; [eauto|exact Hr].
Qed.

(** ** Submitting the request *)

Lemma onSubmit_anonymous env data w :
  user (ui w) = None -> onSubmit env data w = (w, inr tt).
Proof.
  intros Hu. unfold onSubmit, bind, get_ui. rewrite Hu. reflexivity.
Qed.

Lemma onSubmit_returns env data w : snd (onSubmit env data w) = inr tt.
Proof.
  destruct (user (ui w)) as [u|] eqn:Hu.
  2:{ rewrite onSubmit_anonymous by exact Hu. reflexivity. }
  unfold onSubmit, bind at 1, get_ui. rewrite Hu.
  unfold bind at 1, setLoading at 1, modify_ui.
  unfold try_catch_finally, try_catch, setLoading, toast, modify_ui.
  match goal with |- context [bind ?m ?k ?x] => destruct (bind m k x) as [w1 [e|[]]] end;
    reflexivity.
Qed.

Lemma valid_justificatifs_from env demandeId files : forall n,
  Forall (fun f => valid_file f = true) files ->
  Forall (fun j => valid_justificatif j = true)
         (justificatifs_from env demandeId n files).
Proof.
  induction files as [|file rest IH]; intros n H; cbn; [constructor|].
  inversion H; subst. constructor; [assumption|apply IH; assumption].
Qed.

Lemma id_justificatifs_from env demandeId files : forall n,
  Forall (fun j => Justificatif.id_demande j = demandeId)
         (justificatifs_from env demandeId n files).
Proof.
  induction files as [|file rest IH]; intros n; cbn; constructor; auto.
Qed.

(** What [onSubmit] leaves behind for a signed-in user, by the answer of the
    insert and the end of [uploadFiles]. *)
Lemma onSubmit_outcomes env data w u :
  user (ui w) = Some u ->
  let w' := exec (onSubmit env data) w in
  let failed := with_loading false
                  (push_toast (toast_error msg_erreur_creation) (with_loading true (ui w))) in
  let done := with_loading false
                (with_location "/fuel-requests"
                   (push_toast (toast_success msg_demande_creee) (with_loading true (ui w)))) in
  vehicules (db w') = vehicules (db w) /\
  validations (db w') = validations (db w) /\
  ((db w' = db w /\ ui w' = failed /\
    insert_refused env w u data = true) \/
   (insert_refused env w u data = false /\
    demandes_carburant (db w') =
      (demandes_carburant (db w) ++ [new_demande env u data])%list /\
    ((ui w' = failed /\ logs (db w') = logs (db w) /\
      justificatifs (db w') = justificatifs (db w) /\
      uploadedFiles (ui w) <> []) \/
     (ui w' = done /\
      (exists added, logs (db w') = (logs (db w) ++ added)%list /\
                     length added = if unavailable env RpcLogAction then 0%nat else 1%nat) /\
      justificatifs (db w') =
        (justificatifs (db w) ++
         justificatifs_from env (uuid env InsertDemande) 0 (uploadedFiles (ui w)))%list)) /\
    ((exists i j fi fj,
        (i < j)%nat /\
        nth_error (uploadedFiles (ui w)) i = Some fi /\
        nth_error (uploadedFiles (ui w)) j = Some fj /\
        file_ext (File.name fi) = file_ext (File.name fj) /\
        date_now env i = date_now env j) ->
     ui w' = failed))).
Proof.
  intros Hu w' failed done. subst w'.
  destruct (insert_refused env w u data) eqn:Hr.
  { rewrite (onSubmit_refused env w u data Hu Hr). cbn [db ui].
    split; [reflexivity|]. split; [reflexivity|]. left. repeat split. }
  rewrite (onSubmit_accepted env w u data Hu Hr). cbv zeta.
  set (w1 := mkWorld _ (with_loading true (ui w))).
  destruct (0 <? length (uploadedFiles (ui w)))%nat eqn:Hlen.
  - destruct (uploadFiles_detail env (uuid env InsertDemande) w1)
      as (w2 & r & names & Hup & (Hui & Hv & Hdem & Hva & Hlogs) & _ & _ & Hr2 & Hcol).
    rewrite Hup.
    assert (Hne : uploadedFiles (ui w) <> []).
    { intros Hnil. rewrite Hnil in Hlen. discriminate. }
    destruct r as [e|[]]; cbn [db ui].
    + rewrite Hv, Hva, Hdem, Hlogs, Hui, Hr2.
      split; [reflexivity|]. split; [reflexivity|]. right.
      split; [reflexivity|]. split; [reflexivity|]. split; [|reflexivity].
      left. repeat split. exact Hne.
    + destruct Hr2 as [Hj _]. rewrite Hui. subst w1. cbn [ui user with_loading] in *.
      rewrite Hu. cbn [policy_insert_log negb orb].
      rewrite orb_false_r.
      split; [destruct (unavailable env RpcLogAction); exact Hv|].
      split; [destruct (unavailable env RpcLogAction); exact Hva|]. right.
      split; [reflexivity|].
      split; [destruct (unavailable env RpcLogAction); exact Hdem|]. split.
      * right. split; [reflexivity|]. split.
        -- destruct (unavailable env RpcLogAction); cbn [logs set_logs].
           ++ exists []. rewrite app_nil_r. split; [exact Hlogs|reflexivity].
           ++ eexists. split; [rewrite Hlogs; reflexivity|reflexivity].
        -- destruct (unavailable env RpcLogAction); exact Hj.
      * intros (i & j & fi & fj & Hlt & Hi & Hjj & Hext & Hnow).
        destruct Hcol as [e He]; [|discriminate He].
        exists i, j, fi, fj. repeat split; try assumption.
        unfold object_name. rewrite Hext, Hnow. reflexivity.
  - assert (Hnil : uploadedFiles (ui w) = []).
    { destruct (uploadedFiles (ui w)); [reflexivity|discriminate]. }
    unfold ret. subst w1. cbn [db ui user with_loading]. rewrite Hu.
    cbn [policy_insert_log negb]. rewrite orb_false_r.
    split; [destruct (unavailable env RpcLogAction); reflexivity|].
    split; [destruct (unavailable env RpcLogAction); reflexivity|]. right.
    split; [reflexivity|].
    split; [destruct (unavailable env RpcLogAction); reflexivity|]. split.
    + right. split; [reflexivity|]. split.
      * destruct (unavailable env RpcLogAction); cbn [logs set_logs db].
        -- exists []. rewrite app_nil_r. split; reflexivity.
        -- eexists. split; reflexivity.
      * rewrite Hnil. cbn. rewrite app_nil_r.
        destruct (unavailable env RpcLogAction); reflexivity.
    + intros (i & j & fi & fj & Hlt & Hi & Hjj & _). rewrite Hnil in Hjj.
      destruct j; discriminate.
Qed.

(** ** A failed upload *)

(** Three ways [uploadFiles] throws: the upload of a file is not answered,
    two files are given the same object name, or the insert of the attachment
    rows is not answered. *)
Lemma uploadFiles_throws env demandeId w :
  (exists k, (k < length (uploadedFiles (ui w)))%nat /\
             unavailable env (UploadObject k) = true) \/
  (exists i j fi fj,
     (i < j)%nat /\
     nth_error (uploadedFiles (ui w)) i = Some fi /\
     nth_error (uploadedFiles (ui w)) j = Some fj /\
     file_ext (File.name fi) = file_ext (File.name fj) /\
     date_now env i = date_now env j) \/
  unavailable env InsertJustificatifs = true ->
  exists e, snd (uploadFiles env demandeId w) = inl e.
Proof.
  intros [Hun|[Hcol|Hins]].
  - destruct (uploadFiles_run env demandeId w) as (w' & r & -> & _ & Hfail).
    exact (Hfail Hun).
  - destruct (uploadFiles_detail env demandeId w)
      as (w' & r & names & -> & _ & _ & _ & _ & Hfail).
    apply Hfail. destruct Hcol as (i & j & fi & fj & Hlt & Hi & Hj & Hext & Hnow).
    exists i, j, fi, fj. repeat split; try assumption.
    unfold object_name. rewrite Hext, Hnow. reflexivity.
  - unfold uploadFiles, bind, get_ui.
    destruct (upload_from_run env demandeId (uploadedFiles (ui w)) 0%nat w)
      as (w1 & rs & -> & _ & _).
    destruct (promise_all_run rs w1) as [(rows & -> & _)|(e & ->)].
    + unfold insert_justificatifs, throw_if. rewrite Hins. eexists. reflexivity.
    + exists e. reflexivity.
Qed.

Lemma onSubmit_upload_fails env w u data :
  user (ui w) = Some u ->
  insert_refused env w u data = false ->
  upload_fails env w u data = true ->
  let w' := exec (onSubmit env data) w in
  demandes_carburant (db w') =
    (demandes_carburant (db w) ++ [new_demande env u data])%list /\
  logs (db w') = logs (db w) /\
  ui w' = with_loading false
            (push_toast (toast_error msg_erreur_creation) (with_loading true (ui w))).
Proof.
  intros Hu Hr Hf w'. subst w'. rewrite (onSubmit_accepted env w u data Hu Hr).
  cbv zeta. unfold upload_fails, after_insert in Hf.
  apply andb_true_iff in Hf. destruct Hf as [Hlen Hthrow]. rewrite Hlen.
  destruct (uploadFiles_run env (uuid env InsertDemande)
              (mkWorld (set_demandes (demandes_carburant (db w) ++ [new_demande env u data])
                          (db w))
                       (with_loading true (ui w))))
    as (w2 & r & Hup & (Hui & _ & Hdem & _ & Hlogs) & _).
  rewrite Hup in Hthrow |- *. cbn [snd] in Hthrow.
  destruct r as [e|[]]; [|discriminate Hthrow].
  cbn [db ui]. rewrite Hdem, Hlogs, Hui. repeat split.
Qed.

(** C9, as stated, fails: the request of a driver is created, the upload of
    the attached ticket fails, and what the driver is shown is the toast of a
    creation that failed outright, with no success reported. *)
Lemma failed_upload_reported_as_failure :
  let w := w_driver true [ticket] in
  let w' := exec (handleSubmit env_upload_fails form_ok) w in
  let w_plain := exec (handleSubmit env_insert_demande_fails form_ok) w in
  map Demande.statut (demandes_carburant (db w')) = [en_attente] /\
  demandes_carburant (db w_plain) = [] /\
  new_toasts w w' = [toast_error msg_erreur_creation] /\
  new_toasts w w' = new_toasts w w_plain /\
  succeeded w w' = false.
Proof. vm_compute. repeat split. Qed.

(** C9, as the page has it. Take a submission whose request row the store
    accepted. An upload fails when there are files to attach and
    [uploadFiles] throws; it does so, among others, when the upload of one of
    the files is not answered, when two of the files end in the same extension
    and read the same value of the clock, and when the insert of the
    attachment rows is not answered. Whenever an upload fails, the request row
    stays in the store; no log entry is written, the page does not navigate
    away, and the one toast shown is the creation failure, the same as when
    the insert itself is refused. *)
Theorem failed_upload_keeps_request env w u data :
  user (ui w) = Some u ->
  insert_refused env w u data = false ->
  let files := uploadedFiles (ui w) in
  let w' := exec (onSubmit env data) w in
  ((exists k, (k < length files)%nat /\ unavailable env (UploadObject k) = true) \/
   (exists i j fi fj,
      (i < j)%nat /\ nth_error files i = Some fi /\ nth_error files j = Some fj /\
      file_ext (File.name fi) = file_ext (File.name fj) /\
      date_now env i = date_now env j) \/
   (files <> [] /\ unavailable env InsertJustificatifs = true) ->
   upload_fails env w u data = true) /\
  (upload_fails env w u data = true ->
   demandes_carburant (db w') =
     (demandes_carburant (db w) ++ [new_demande env u data])%list /\
   logs (db w') = logs (db w) /\
   location (ui w') = location (ui w) /\
   new_toasts w w' = [toast_error msg_erreur_creation] /\
   forall env',
     insert_refused env' w u data = true ->
     new_toasts w (exec (onSubmit env' data) w) = new_toasts w w').
Proof.
  intros Hu Hr files w'. split.
  - intros Hcause. unfold upload_fails. apply andb_true_iff. split.
    + apply Nat.ltb_lt. fold files.
      destruct Hcause as [(k & Hk & _)|[(i & j & fi & fj & _ & Hi & _)|[Hne _]]].
      * lia.
      * destruct files; [destruct i; discriminate Hi|cbn; lia].
      * destruct files; [congruence|cbn; lia].
    + destruct (uploadFiles_throws env (uuid env InsertDemande)
                  (after_insert env w u data)) as [e ->]; [|reflexivity].
      cbn [after_insert ui with_loading uploadedFiles]. fold files.
      destruct Hcause as [H|[H|[_ H]]]; auto.
  - intros Hf.
    destruct (onSubmit_upload_fails env w u data Hu Hr Hf) as (Hd & Hlogs & Hui).
    fold w' in Hd, Hlogs, Hui.
    assert (Ht : new_toasts w w' = [toast_error msg_erreur_creation]).
    { apply new_toasts_app. rewrite Hui. reflexivity. }
    repeat split; try assumption.
    + rewrite Hui. reflexivity.
    + intros env' Hr'. rewrite Ht, (onSubmit_refused env' w u data Hu Hr').
      apply new_toasts_app. reflexivity.
Qed.

Lemma ticket_upload_failure_keeps_request :
  let w := w_driver true [ticket] in
  let w' := exec (onSubmit env_upload_fails data_ok) w in
  user (ui w) = Some D1 /\
  insert_refused env_upload_fails w D1 data_ok = false /\
  upload_fails env_upload_fails w D1 data_ok = true /\
  demandes_carburant (db w') =
    (demandes_carburant (db w) ++ [new_demande env_upload_fails D1 data_ok])%list /\
  logs (db w') = logs (db w) /\
  location (ui w') = location (ui w) /\
  new_toasts w w' = [toast_error msg_erreur_creation] /\
  forall env',
    insert_refused env' w D1 data_ok = true ->
    new_toasts w (exec (onSubmit env' data_ok) w) = new_toasts w w'.
Proof.
  cbv zeta. split; [reflexivity|]. split; [reflexivity|]. split; [reflexivity|].
  exact (proj2 (failed_upload_keeps_request env_upload_fails (w_driver true [ticket])
                  D1 data_ok eq_refl eq_refl) eq_refl).
Defined.

(** X12. A submission never touches vehicles or validation records and adds
    at most the one request of the caller. For a signed-in user it ends with
    the loading flag down, the selection and the profile as they were, and
    exactly one toast; a success toast means that the request is in the store
    and the page has moved to the list; after a failure toast the page has not
    moved and no log entry was written. Without a signed-in user nothing
    happens at all. *)
Theorem onSubmit_frame env data w :
  let w' := exec (onSubmit env data) w in
  match user (ui w) with
  | None => w' = w
  | Some u =>
      vehicules (db w') = vehicules (db w) /\
      validations (db w') = validations (db w) /\
      (demandes_carburant (db w') = demandes_carburant (db w) \/
       demandes_carburant (db w') =
         (demandes_carburant (db w) ++ [new_demande env u data])%list) /\
      loading (ui w') = false /\
      user (ui w') = Some u /\
      uploadedFiles (ui w') = uploadedFiles (ui w) /\
      length (new_toasts w w') = 1%nat /\
      (succeeded w w' = true ->
       demandes_carburant (db w') =
         (demandes_carburant (db w) ++ [new_demande env u data])%list /\
       location (ui w') = "/fuel-requests") /\
      (succeeded w w' = false ->
       location (ui w') = location (ui w) /\ logs (db w') = logs (db w))
  end.
Proof.
  intros w'. destruct (user (ui w)) as [u|] eqn:Hu.
  2:{ subst w'. unfold exec. rewrite onSubmit_anonymous by exact Hu. reflexivity. }
  destruct (onSubmit_outcomes env data w u Hu) as (Hv & Hva & Hcase).
  fold w' in Hv, Hva, Hcase.
  split; [exact Hv|]. split; [exact Hva|].
  assert (Hfail : ui w' = with_loading false
                    (push_toast (toast_error msg_erreur_creation)
                       (with_loading true (ui w))) ->
                  loading (ui w') = false /\ user (ui w') = Some u /\
                  uploadedFiles (ui w') = uploadedFiles (ui w) /\
                  length (new_toasts w w') = 1%nat /\
                  succeeded w w' = false /\ location (ui w') = location (ui w)).
  { intros E. unfold succeeded.
    rewrite (new_toasts_app w w' [toast_error msg_erreur_creation])
      by (rewrite E; reflexivity).
    rewrite E. repeat split. exact Hu. }
  destruct Hcase as [(Hdb & Hui & _)|(_ & Hdem & Hend & _)].
  - destruct (Hfail Hui) as (Hl & Hus & Hf & Hn & Hs & Hloc).
    split; [left; rewrite Hdb; reflexivity|].
    repeat (split; [assumption|]). split.
    + intros Ht. congruence.
    + intros _. split; [exact Hloc|rewrite Hdb; reflexivity].
  - split; [right; exact Hdem|].
    destruct Hend as [(Hui & Hlogs & _)|(Hui & _)].
    + destruct (Hfail Hui) as (Hl & Hus & Hf & Hn & Hs & Hloc).
      repeat (split; [assumption|]). split.
      * intros Ht. congruence.
      * intros _. split; assumption.
    + assert (Hs : succeeded w w' = true /\ length (new_toasts w w') = 1%nat).
      { unfold succeeded.
        rewrite (new_toasts_app w w' [toast_success msg_demande_creee])
          by (rewrite Hui; reflexivity).
        split; reflexivity. }
      destruct Hs as [Hs Hn]. rewrite Hui.
      split; [reflexivity|]. split; [exact Hu|]. split; [reflexivity|].
      split; [exact Hn|]. rewrite <- Hui. split.
      * intros _. split; [exact Hdem|rewrite Hui; reflexivity].
      * intros Ht. congruence.
Qed.

(** X13. Every attachment row a submission writes is within the limits of the
    file input, JPEG, PNG or PDF and at most 5 MB, and is tied to the request
    just created, however the selection was built: by any sequence of choosing
    files and removing them, starting from an empty selection. *)
Theorem attachments_within_limits env data actions w :
  uploadedFiles (ui w) = [] ->
  let w' := exec (onSubmit env data) (file_actions actions w) in
  exists rows,
    justificatifs (db w') = (justificatifs (db w) ++ rows)%list /\
    Forall (fun j => valid_justificatif j = true) rows /\
    Forall (fun j => Justificatif.id_demande j = uuid env InsertDemande) rows.
Proof.
  intros Hnil w'.
  destruct (file_actions_valid actions w) as [Hvalid Hdb].
  { rewrite Hnil. constructor. }
  set (w1 := file_actions actions w) in *.
  assert (Hnone : justificatifs (db w') = justificatifs (db w1) ->
                  exists rows,
                    justificatifs (db w') = (justificatifs (db w) ++ rows)%list /\
                    Forall (fun j => valid_justificatif j = true) rows /\
                    Forall (fun j => Justificatif.id_demande j = uuid env InsertDemande) rows).
  { intros E. exists []. rewrite app_nil_r, E, Hdb. repeat split; constructor. }
  destruct (user (ui w1)) as [u|] eqn:Hu.
  2:{ apply Hnone. subst w'. unfold exec. rewrite onSubmit_anonymous by exact Hu.
      reflexivity. }
  destruct (onSubmit_outcomes env data w1 u Hu) as (_ & _ & Hcase). fold w' in Hcase.
  destruct Hcase as [(E & _)|(_ & _ & [(_ & _ & E & _)|(_ & _ & E)] & _)].
  - apply Hnone. rewrite E. reflexivity.
  - apply Hnone. exact E.
  - eexists. rewrite E, Hdb. split; [reflexivity|]. split.
    + apply valid_justificatifs_from. exact Hvalid.
    + apply id_justificatifs_from.
Qed.

(** X14. When the store accepts the request of a signed-in user and two of
    the selected files end in the same extension and read the same value of
    the clock, the request is created and stays, yet the submission is
    reported with the creation failure toast and writes no attachment row and
    no log entry, with every call to the service answered or not. *)
Theorem same_extension_attachments_fail_submission env data w u i j fi fj :
  user (ui w) = Some u ->
  insert_refused env w u data = false ->
  (i < j)%nat ->
  nth_error (uploadedFiles (ui w)) i = Some fi ->
  nth_error (uploadedFiles (ui w)) j = Some fj ->
  file_ext (File.name fi) = file_ext (File.name fj) ->
  date_now env i = date_now env j ->
  let w' := exec (onSubmit env data) w in
  demandes_carburant (db w') =
    (demandes_carburant (db w) ++ [new_demande env u data])%list /\
  new_toasts w w' = [toast_error msg_erreur_creation] /\
  justificatifs (db w') = justificatifs (db w) /\
  logs (db w') = logs (db w).
Proof.
  intros Hu Hr Hlt Hi Hj Hext Hnow w'.
  destruct (onSubmit_outcomes env data w u Hu) as (_ & _ & Hcase). fold w' in Hcase.
  destruct Hcase as [(_ & _ & Hr')|(_ & Hdem & Hend & Hcol)]; [congruence|].
  assert (Hui : ui w' = with_loading false
                  (push_toast (toast_error msg_erreur_creation)
                     (with_loading true (ui w)))).
  { apply Hcol. exists i, j, fi, fj. repeat split; assumption. }
  split; [exact Hdem|]. split.
  { apply new_toasts_app. rewrite Hui. reflexivity. }
  destruct Hend as [(_ & Hlogs & Hjs & _)|(Hdone & _)]; [split; assumption|].
  rewrite Hdone in Hui. apply (f_equal toasts) in Hui. cbn in Hui.
  apply app_inv_head in Hui. discriminate Hui.
Qed.

(** ** The properties on the sample data *)

Lemma session_of_two_approvals :
  NoDup (map Demande.id (demandes_carburant (db w_pending))) /\
  in_step w_pending = true /\
  record_and_refresh_answered [approve_R1; approve_R1] = true /\
  let w' := session_run w_pending [approve_R1; approve_R1] in
  NoDup (map Demande.id (demandes_carburant (db w'))) /\
  in_step w' = true /\
  Forall2 row_forward (demandes_carburant (db w_pending)) (demandes_carburant (db w')).
Proof.
  assert (Hnd : NoDup (map Demande.id (demandes_carburant (db w_pending)))).
  { constructor; [intros []|constructor]. }
  split; [exact Hnd|]. split; [reflexivity|]. split; [reflexivity|].
  exact (session_stays_in_step_and_moves_forward [approve_R1; approve_R1] w_pending
           Hnd eq_refl eq_refl).
Defined.

Lemma supervisor_list_newest_first :
  unavailable env_ok SelectDemandes = false /\
  StronglySorted newer_or_same
    (demandes (ui (exec (fetchDemandes env_ok) (w_two_drivers S1)))).
Proof.
  split; [reflexivity|].
  exact (fetchDemandes_newest_first env_ok (w_two_drivers S1) eq_refl).
Defined.

Lemma supervisor_passes_store_policies :
  canValidate (Some S1) (R1_in en_attente) = true /\
  policy_update_demande (Some S1) = true /\
  (forall v, Validation.valide_par v = Some (User.id S1) ->
             policy_insert_validation (Some S1) v = true) /\
  policy_insert_log (Some S1) = true.
Proof.
  split; [reflexivity|].
  exact (gate_within_store_policies S1 (R1_in en_attente) eq_refl).
Defined.

Lemma administrator_is_refused :
  let w := mkWorld (store_with true [R1_in en_attente]) (browser A1 [R1_in en_attente] []) in
  user (ui w) = Some A1 /\
  (User.role A1 = admin \/ User.role A1 = chauffeur) /\
  find (fun d => String.eqb (Demande.id d) "R1") (demandes (ui w)) = Some (R1_in en_attente) /\
  canValidate (Some A1) (R1_in en_attente) = false /\
  exec (handleValidation env_ok "R1" approuve None) w =
    mkWorld (db w) (push_toast (toast_error msg_non_autorisee) (ui w)) /\
  (User.role A1 = admin ->
   policy_update_demande (Some A1) = true /\
   forall v, Validation.valide_par v = Some (User.id A1) ->
             policy_insert_validation (Some A1) v = true).
Proof.
  cbv zeta. split; [reflexivity|]. split; [left; reflexivity|]. split; [reflexivity|].
  exact (admin_and_driver_never_decide env_ok "R1" approuve None
           (mkWorld (store_with true [R1_in en_attente])
                    (browser A1 [R1_in en_attente] []))
           A1 (R1_in en_attente) eq_refl (or_introl eq_refl) eq_refl).
Defined.

Lemma two_pdf_uploads_collide :
  let w := w_driver true [ticket; facture] in
  (0 < 1)%nat /\
  nth_error (uploadedFiles (ui w)) 0 = Some ticket /\
  nth_error (uploadedFiles (ui w)) 1 = Some facture /\
  file_ext (File.name ticket) = file_ext (File.name facture) /\
  date_now env_same_clock 0 = date_now env_same_clock 1 /\
  (exists e, snd (uploadFiles env_same_clock "R2" w) = inl e) /\
  justificatifs (db (fst (uploadFiles env_same_clock "R2" w))) = justificatifs (db w).
Proof.
  cbv zeta. split; [exact (le_n 1)|]. split; [reflexivity|]. split; [reflexivity|].
  split; [reflexivity|]. split; [reflexivity|].
  exact (same_name_uploads_collide env_same_clock "R2" (w_driver true [ticket; facture])
           0 1 ticket facture (le_n 1) eq_refl eq_refl eq_refl eq_refl).
Defined.

Lemma picked_files_give_valid_rows :
  let actions := [PickFiles [video; ticket; facture]; RemoveFile 1] in
  uploadedFiles (ui (w_driver true [])) = [] /\
  let w' := exec (onSubmit env_ok data_ok) (file_actions actions (w_driver true [])) in
  exists rows,
    justificatifs (db w') = (justificatifs (db (w_driver true [])) ++ rows)%list /\
    Forall (fun j => valid_justificatif j = true) rows /\
    Forall (fun j => Justificatif.id_demande j = uuid env_ok InsertDemande) rows.
Proof.
  cbv zeta. split; [reflexivity|].
  exact (attachments_within_limits env_ok data_ok
           [PickFiles [video; ticket; facture]; RemoveFile 1] (w_driver true []) eq_refl).
Defined.

Lemma two_pdf_submission_reported_failed :
  let w := w_driver true [ticket; facture] in
  let w' := exec (onSubmit env_same_clock data_ok) w in
  user (ui w) = Some D1 /\
  insert_refused env_same_clock w D1 data_ok = false /\
  demandes_carburant (db w') =
    (demandes_carburant (db w) ++ [new_demande env_same_clock D1 data_ok])%list /\
  new_toasts w w' = [toast_error msg_erreur_creation] /\
  justificatifs (db w') = justificatifs (db w) /\
  logs (db w') = logs (db w).
Proof.
  cbv zeta. split; [reflexivity|]. split; [reflexivity|].
  exact (same_extension_attachments_fail_submission env_same_clock data_ok
           (w_driver true [ticket; facture]) D1 0 1 ticket facture
           eq_refl eq_refl (le_n 1) eq_refl eq_refl eq_refl eq_refl).
Defined.

Lemma approved_request_shown_as_approved :
  let w' := exec (handleValidation env_ok "R1" approuve None) w_pending in
  succeeded w_pending w' = true /\
  unavailable env_ok SelectDemandes = false /\
  exists demande next lvl shown,
    find (fun d => String.eqb (Demande.id d) "R1") (demandes (ui w_pending)) = Some demande /\
    table_decide (Demande.statut demande) (option_map User.role (user (ui w_pending)))
      approuve = Some (next, lvl) /\
    find (fun d => String.eqb (Demande.id d) "R1") (demandes (ui w')) = Some shown /\
    Demande.statut shown = next /\
    canValidate (user (ui w')) shown = false /\
    showModal (ui w') = false /\ loading (ui w') = false.
Proof.
  cbv zeta. split; [reflexivity|]. split; [reflexivity|].
  exact (decided_request_shown_with_new_status env_ok "R1" approuve None w_pending
           eq_refl eq_refl).
Defined.
